(** * Camera stream relay: compressed_vipc3.py and compressed_vipc4.py

    A shallow embedding of the two scripts of [tools/camerastream]: the
    pixel repacking done before a frame is handed to the vision bus, the
    buffer reader [extract_image], and the per-stream worker [decoder]
    that gates on the first keyframe, decodes, repacks and publishes.

    Conventions.
    - Python integers are [Z]; sizes and positions are [nat].
    - A numpy array of [uint8] is the list of its elements in C order.
    - The clocks, the HEVC decoder and the keyboard are oracles: section
      variables that the worker consults in program order.
    - Python floats (clock readings) form an abstract type [Time]; the two
      operations the scripts apply to them are kept abstract as well, so
      nothing below depends on how floating point rounds.
    - Calls into PyAV, OpenCV, the messaging layer and the vision bus
      return normally; the exceptions that are modelled are those the
      scripts raise themselves ([assert]) or provoke by what they pass
      to numpy and to [extract_image]. *)

From Stdlib Require Import List ZArith Lia Bool Arith.
From Stdlib Require Import Strings.Byte Sorting.Sorted.
Import ListNotations.

(** ** numpy on flat [uint8] arrays *)

Definition bytes := list byte.

Section Numpy.
Context {A : Type}.

(** [a[start::2]] after the start offset has been dropped: every other
    element, the first one included. *)
Fixpoint step2 (a : list A) : list A :=
  match a with
  | [] => []
  | [x] => [x]
  | x :: _ :: rest => x :: step2 rest
  end.

(** [a[start::2]] *)
Definition slice_step2 (start : nat) (a : list A) : list A :=
  step2 (skipn start a).

(** [a.reshape(2, -1)]: two rows of equal length; numpy raises
    [ValueError] (here [None]) when the size is odd. *)
Definition reshape_2 (a : list A) : option (list A * list A) :=
  if Nat.even (length a)
  then Some (firstn (length a / 2) a, skipn (length a / 2) a)
  else None.

(** [m.ravel('F')] of a two-row array: column-major order, so the two
    rows alternate, row 0 first. *)
Fixpoint ravel_F (r0 r1 : list A) : list A :=
  match r0, r1 with
  | x :: r0', y :: r1' => x :: y :: ravel_F r0' r1'
  | _, _ => []
  end.

(** Cut a flat array into rows of [ncols] elements ([fuel] bounds the
    number of rows). *)
Fixpoint chunks (fuel ncols : nat) (a : list A) : list (list A) :=
  match fuel with
  | O => []
  | S fuel' =>
      match a with
      | [] => []
      | _ :: _ => firstn ncols a :: chunks fuel' ncols (skipn ncols a)
      end
  end.

(** [a.reshape((-1, ncols))]: numpy raises [ValueError] when [ncols] is
    zero or does not divide the size. *)
Definition reshape_rows (ncols : nat) (a : list A) : option (list (list A)) :=
  match ncols with
  | O => None
  | S _ =>
      if (length a mod ncols =? 0)%nat
      then Some (chunks (length a) ncols a)
      else None
  end.

(** [m[:h, :w]] *)
Definition crop (h w : nat) (m : list (list A)) : list (list A) :=
  map (firstn w) (firstn h m).
(** [m[i][j]] of an array given by its rows, [None] out of range. *)
Definition sample (m : list (list A)) (i j : nat) : option A :=
  match nth_error m i with
  | Some row => nth_error row j
  | None => None
  end.

(** [np.repeat(a, 2)] without an axis: the flattened array, every
    element twice. *)
Definition repeat_2 (a : list A) : list A :=
  flat_map (fun x => [x; x]) a.

(** [np.repeat(m, 2, axis=0)] of an array given by its rows. *)
Definition repeat_rows_2 (m : list (list A)) : list (list A) :=
  flat_map (fun row => [row; row]) m.

(** Lines 20-21 of compressed_vipc3.py, the integer part of
    [yuv_to_rgb], for a chroma plane [u] of shape [ushape] and a luma
    plane of shape [yshape]:
<<
    np.repeat(np.repeat(u, 2).reshape(u.shape[0], y.shape[1]), 2, axis=0)
      .reshape(y.shape)
>>
    [None] stands for the [ValueError] of either [reshape]. *)
Definition upsample (yshape ushape : nat * nat) (u : list A) : option (list A) :=
  let doubled := repeat_2 u in
  if (length doubled =? fst ushape * snd yshape)%nat
  then
    let rows := chunks (fst ushape) (snd yshape) doubled in
    let twice := concat (repeat_rows_2 rows) in
    if (length twice =? fst yshape * snd yshape)%nat
    then Some twice
    else None
  else None.
End Numpy.

(** ** Decoded frames and the bus layout *)

(** A frame returned by [codec.decode], already seen through
    [to_ndarray(format=VideoFormat('yuv420p'))]: three planes. *)
Record VideoFrame := {
  plane_y : bytes;
  plane_u : bytes;
  plane_v : bytes
}.

(** PyAV lays a yuv420p frame out as the Y plane, then U, then V;
    [.flatten()] gives the elements in that order. *)
Definition to_ndarray_flat (f : VideoFrame) : bytes :=
  plane_y f ++ plane_u f ++ plane_v f.

(** A planar YUV420 frame of dimensions [W]x[H]. *)
Definition wf_frame (W H : nat) (f : VideoFrame) : Prop :=
  length (plane_y f) = (H * W)%nat /\
  length (plane_u f) = ((H / 2) * (W / 2))%nat /\
  length (plane_v f) = ((H / 2) * (W / 2))%nat.

(** Lines 86-89 of compressed_vipc3.py (104-107 of compressed_vipc4.py):
<<
    uv_offset = H * W
    y = img_yuv[:uv_offset]
    uv = img_yuv[uv_offset:].reshape(2, -1).ravel('F')
    img_yuv = np.hstack((y, uv))
>>
    [None] stands for the [ValueError] of [reshape]. *)
Definition pack (W H : nat) (img_yuv : bytes) : option bytes :=
  let uv_offset := (H * W)%nat in
  let y := firstn uv_offset img_yuv in
  match reshape_2 (skipn uv_offset img_yuv) with
  | Some (r0, r1) => Some (y ++ ravel_F r0 r1)
  | None => None
  end.

(** The buffer object [extract_image] is written for. *)
Record VisionBuf := {
  buf_data : bytes;
  uv_offset : nat;
  stride : nat;
  height : nat;
  width : nat
}.

(** Lines 36-38 of compressed_vipc3.py: the three planes read back from
    a buffer in bus layout, each as a list of rows. *)
Definition extract_planes (buf : VisionBuf)
  : option (list bytes * list bytes * list bytes) :=
  match reshape_rows (stride buf) (firstn (uv_offset buf) (buf_data buf)),
        reshape_rows (stride buf / 2) (slice_step2 (uv_offset buf) (buf_data buf)),
        reshape_rows (stride buf / 2) (slice_step2 (uv_offset buf + 1) (buf_data buf))
  with
  | Some y, Some u, Some v =>
      Some (crop (height buf) (width buf) y,
            crop (height buf / 2) (width buf / 2) u,
            crop (height buf / 2) (width buf / 2) v)
  | _, _, _ => None
  end.

(** ** Packets, exceptions and the objects handed to [extract_image] *)

Definition V4L2_BUF_FLAG_KEYFRAME : Z := 8.

(** [evta.idx] *)
Record EncodeIndex := {
  encodeId : Z;
  flags : Z;
  timestampSof : Z;
  timestampEof : Z
}.

(** [evta = getattr(evt, evt.which())] *)
Record EncodeData := {
  idx : EncodeIndex;
  header : bytes;
  data : bytes;
  unixTimestampNanos : Z
}.

(** One message of the subscription socket. *)
Record Event := {
  evta : EncodeData;
  logMonoTime : Z
}.

(** Truth value of a Python integer. *)
Definition truthy (z : Z) : bool := negb (z =? 0)%Z.

(** [evta.idx.flags & V4L2_BUF_FLAG_KEYFRAME] as a condition. *)
Definition is_keyframe (evt : Event) : bool :=
  truthy (Z.land (flags (idx (evta evt))) V4L2_BUF_FLAG_KEYFRAME).

Inductive exn :=
| AssertionError
| ValueError
| AttributeError
| IndexError
| NameError.

(** The two scripts; their worker loops differ only in the side path
    that shows frames to a human. *)
Inductive script :=
| compressed_vipc3
| compressed_vipc4.

(** What a call site may pass as [buf]: a numpy array (which has [data]
    but none of [uv_offset], [stride], [height], [width]) or a buffer
    that has them all. *)
Inductive PyObject :=
| PyNdarray (rows cols : nat) (elts : bytes)
| PyVisionBuf (buf : VisionBuf).

(** [np.frombuffer(a, dtype=np.uint8).reshape((rows, cols))]: numpy
    raises [ValueError] (here [None]) unless the sizes agree. *)
Definition frombuffer_reshape (rows cols : nat) (a : bytes) : option PyObject :=
  if (length a =? rows * cols)%nat then Some (PyNdarray rows cols a) else None.

(** How one statement of the loop body ends. *)
Inductive result (A : Type) :=
| Ok (a : A)
| Continue
| Return
| Raise (e : exn).
Arguments Ok {A} a.
Arguments Continue {A}.
Arguments Return {A}.
Arguments Raise {A} e.

(** Lines printed in debug mode; the floating-point latencies of the last
    one are left out. *)
Inductive LogLine :=
| LStart
| LDropPacket
| LWaitingIframe
| LDropSurface
| LLatency (nmsgs : nat) (encode_id : Z) (data_len : nat).

(** Which field of the packet a [codec.decode] call is fed with. *)
Inductive PacketField :=
| Header
| Data.

(** ** A small world to run the worker in

    Clock readings are integers in nanoseconds; every consultation of
    the outside world advances both clocks by 0.4 s. The toy decoder
    counts the packets it was fed and answers by the first byte of the
    packet: nothing for an empty packet, two frames for a packet that
    starts with byte 2, one 2x2 frame otherwise. *)

Definition toy_ns (t : Z) : Z := t.
Definition toy_ge_1s (a b : Z) : bool := (1000000000 <=? a - b)%Z.
Definition toy_monotonic (n : nat) : Z := (5000000000 + 400000000 * Z.of_nat n)%Z.
Definition toy_wall (n : nat) : Z := (1700000000000000000 + 400000000 * Z.of_nat n)%Z.
Definition toy_keyboard (n : nat) : Z := (-1)%Z.

Definition toy_frame (b : byte) : VideoFrame :=
  {| plane_y := [b; b; b; b]; plane_u := [x01]; plane_v := [x02] |}.

Definition toy_decode (fed : nat) (pkt : bytes) : nat * list VideoFrame :=
  (S fed,
   match pkt with
   | [] => []
   | b :: _ =>
       if Byte.eqb b x02 then [toy_frame b; toy_frame b] else [toy_frame b]
   end).

Definition toy_yuv_to_rgb (y u v : list bytes) : exn + list bytes :=
  inr (y ++ u ++ v).

(** A packet with the given sequence number, flags and payload. *)
Definition packet (id fl : Z) (hdr payload : bytes) : Event :=
  {| evta := {| idx := {| encodeId := id; flags := fl;
                          timestampSof := 0; timestampEof := 0 |};
                header := hdr; data := payload;
                unixTimestampNanos := 0 |};
     logMonoTime := 0 |}.

(** Sample streams. Flags 8 mark a keyframe; the payload decides what
    the toy decoder returns. *)

(** A discarded packet, the first keyframe, then a jump of [encodeId]
    from 6 to 9 on a packet the decoder drops, then two good packets. *)
Definition stream_with_gap : list (list Event) :=
  [[packet 5 0 [] [x07]; packet 6 8 [x09] [x07]];
   [packet 9 0 [] []; packet 10 0 [] [x03]; packet 11 0 [] [x03]]].

(** The same packets numbered without a gap. *)
Definition stream_without_gap : list (list Event) :=
  [[packet 5 0 [] [x07]; packet 6 8 [x09] [x07]];
   [packet 7 0 [] []; packet 8 0 [] [x03]; packet 9 0 [] [x03]]].

(** A keyframe for which the decoder returns two frames. *)
Definition stream_two_frames : list (list Event) :=
  [[packet 1 8 [x09] [x02]]].

(** A keyframe and one more packet, one frame each. *)
Definition stream_two_packets : list (list Event) :=
  [[packet 1 8 [x09] [x07]; packet 2 0 [] [x07]]].

(** Two packets before any keyframe. *)
Definition stream_unsynced : list (list Event) :=
  [[packet 5 0 [] [x07]; packet 6 0 [] [x07]]].

(** A decoder that honours its contract: at most one 2x2 frame per
    packet. *)
Definition toy_decode_one (fed : nat) (pkt : bytes) : nat * list VideoFrame :=
  (S fed,
   match pkt with
   | [] => []
   | b :: _ => [toy_frame b]
   end).

(** The display process draws the number of the picture as its random
    image and writes the frame index next to it. *)
Definition toy_randint (n : nat) : list Z := [Z.of_nat n].
Definition toy_putText (img : list Z) (frame_cnt : Z) : list Z :=
  img ++ [frame_cnt].

(** A keyboard on which [q] (code 113) is pressed while the second
    picture is up. *)
Definition toy_keyboard_q (n : nat) : Z :=
  if (n =? 1)%nat then 113%Z else (-1)%Z.

(** A buffer of two rows of four bytes, the last one of each row being
    padding, followed by one row of chroma pairs. *)
Definition toy_buf : VisionBuf :=
  {| buf_data := [x01; x02; x03; x00; x04; x05; x06; x00;
                  x0a; x0b; x0c; x0d];
     uv_offset := 8; stride := 4; height := 2; width := 3 |}.

(** ** The display process of compressed_vipc4.py: [frame_processor] *)

(** What the display process does that is visible from outside:
    [print], [cv2.imshow], [cv2.waitKey] and [cv2.destroyAllWindows]. *)
Inductive DisplayAction (Canvas : Type) :=
| DPrint (frame_cnt : Z)
| DImshow (random_img : Canvas)
| DWaitKey (key : Z)
| DDestroyAllWindows.
Arguments DPrint {Canvas} frame_cnt.
Arguments DImshow {Canvas} random_img.
Arguments DWaitKey {Canvas} key.
Arguments DDestroyAllWindows {Canvas}.

(** Where the process stands once it has read what the queue holds: it
    has returned, or it waits in [frame_queue.get()]. *)
Inductive DisplayEnd :=
| Returned
| Waiting.

Section Display.
(** What the worker puts on the queue as [img_rgb], and the images of
    OpenCV. *)
Context {Picture Canvas : Type}.
(** [np.random.randint(0, 256, (480, 640, 3), dtype=np.uint8)] for the
    n-th picture. *)
Variable randint : nat -> Canvas.
(** [cv2.putText(img, f"Frame: {cnt}", ...)], which writes into [img]. *)
Variable putText : Canvas -> Z -> Canvas.
(** [cv2.waitKey(1)] while the n-th picture is up. *)
Variable keyboard : nat -> Z.

(** [frame_processor(frame_queue, yolov8_model, debug)], lines 31-49 of
    compressed_vipc4.py, on the items the queue delivers, [None] or a
    pair; [n] pictures have been shown so far. Neither [yolov8_model]
    nor [debug] is used. *)
Fixpoint frame_processor (frame_queue : list (option (Picture * Z))) (n : nat)
  : list (DisplayAction Canvas) * DisplayEnd :=
  match frame_queue with
  | [] =>
      (* 33 *)
      ([], Waiting)
  | None :: _ =>
      (* 34-35, 49 *)
      ([DDestroyAllWindows], Returned)
  | Some (img_rgb, cnt) :: rest =>
      (* 39-41 *)
      let random_img := putText (randint n) cnt in
      (* 44, 46, 47 *)
      let key := keyboard n in
      let shown := [DPrint cnt; DImshow random_img; DWaitKey key] in
      if (Z.land key 255 =? 113)%Z
      then
        (* 48, 49 *)
        (shown ++ [DDestroyAllWindows], Returned)
      else
        let (o, e) := frame_processor rest (S n) in
        (shown ++ o, e)
  end.

(** What showing the frames [frames] amounts to, the first of them as
    picture [n]: for each a line of output, a random image with the
    frame index written on it, and a reading of the keyboard. *)
Fixpoint pictures (frames : list (Picture * Z)) (n : nat)
  : list (DisplayAction Canvas) :=
  match frames with
  | [] => []
  | (_, cnt) :: rest =>
      [DPrint cnt; DImshow (putText (randint n) cnt); DWaitKey (keyboard n)]
      ++ pictures rest (S n)
  end.

(** The frame indices printed, in order. *)
Fixpoint displayed (o : list (DisplayAction Canvas)) : list Z :=
  match o with
  | [] => []
  | DPrint c :: o' => c :: displayed o'
  | _ :: o' => displayed o'
  end.

(** Number of calls of [cv2.destroyAllWindows]. *)
Fixpoint windows_closed (o : list (DisplayAction Canvas)) : nat :=
  match o with
  | [] => O
  | DDestroyAllWindows :: o' => S (windows_closed o')
  | _ :: o' => windows_closed o'
  end.

(** The key [q] is not pressed while the pictures [n], ..., [n + k - 1]
    are up. *)
Definition no_q (n k : nat) : Prop :=
  forall i, (i < k)%nat -> (Z.land (keyboard (n + i)) 255 =? 113)%Z = false.
End Display.

(** ** The worker: [decoder] *)

Section Worker.
(** Clock readings ([float] seconds in the scripts). *)
Context {Time : Type}.
(** [int(t * 1e9)] *)
Variable ns : Time -> Z.
(** [a - b >= 1] *)
Variable ge_1s : Time -> Time -> bool.
(** The n-th consultation of the outside world, had it been
    [time.monotonic()], [time.time()] or [cv2.waitKey(1)]. *)
Variable monotonic : nat -> Time.
Variable wall : nat -> Time.
Variable keyboard : nat -> Z.
(** The HEVC decoder: [av.CodecContext.create("hevc", "r")] and its
    [decode] method, which updates the context and returns frames. *)
Context {Codec : Type}.
Variable codec_create : Codec.
Variable codec_decode : Codec -> bytes -> Codec * list VideoFrame.
(** The colour conversion of [yuv_to_rgb] (floating point), applied to
    the three planes; its shape checks may raise. *)
Context {Image : Type}.
Variable yuv_to_rgb : list bytes -> list bytes -> list bytes -> exn + Image.

(** Arguments of [decoder]. *)
Variable which : script.
Variable W H : nat.
Variable debug : bool.

(** [extract_image(buf)], lines 35-40 of compressed_vipc3.py. Reading
    [buf.uv_offset] on a numpy array raises [AttributeError]. *)
Definition extract_image (buf : PyObject) : exn + Image :=
  match buf with
  | PyNdarray _ _ _ => inl AttributeError
  | PyVisionBuf b =>
      match extract_planes b with
      | Some (y, u, v) => yuv_to_rgb y u v
      | None => inl ValueError
      end
  end.

(** What the worker does that is visible from outside, in program
    order, together with the operations on [time_q]. *)
Inductive Action :=
| APrint (l : LogLine)
| AMonotonic (t : Time)
| ATime (t : Time)
| AAppend (t : Time)
| ADecode (f : PacketField) (b : bytes) (nframes : nat)
| APut (img_yuv : bytes) (frame_cnt : Z)
| ASend (img : bytes) (frame_cnt : Z) (capture publish : Z)
| AImshow (img : Image)
| AWaitKey (k : Z)
| APop
| ASleep.

(** The local variables of [decoder] and the number of consultations
    of the outside world so far. *)
Record State := {
  codec : Codec;
  cnt : Z;
  last_idx : Z;
  seen_iframe : bool;
  time_q : list Time;
  last_capture_time : option Time;
  tick : nat
}.

Definition set_codec (c : Codec) (s : State) : State :=
  {| codec := c; cnt := cnt s; last_idx := last_idx s;
     seen_iframe := seen_iframe s; time_q := time_q s;
     last_capture_time := last_capture_time s; tick := tick s |}.
Definition set_cnt (n : Z) (s : State) : State :=
  {| codec := codec s; cnt := n; last_idx := last_idx s;
     seen_iframe := seen_iframe s; time_q := time_q s;
     last_capture_time := last_capture_time s; tick := tick s |}.
Definition set_last_idx (n : Z) (s : State) : State :=
  {| codec := codec s; cnt := cnt s; last_idx := n;
     seen_iframe := seen_iframe s; time_q := time_q s;
     last_capture_time := last_capture_time s; tick := tick s |}.
Definition set_seen_iframe (b : bool) (s : State) : State :=
  {| codec := codec s; cnt := cnt s; last_idx := last_idx s;
     seen_iframe := b; time_q := time_q s;
     last_capture_time := last_capture_time s; tick := tick s |}.
Definition set_time_q (q : list Time) (s : State) : State :=
  {| codec := codec s; cnt := cnt s; last_idx := last_idx s;
     seen_iframe := seen_iframe s; time_q := q;
     last_capture_time := last_capture_time s; tick := tick s |}.
Definition set_last_capture_time (t : option Time) (s : State) : State :=
  {| codec := codec s; cnt := cnt s; last_idx := last_idx s;
     seen_iframe := seen_iframe s; time_q := time_q s;
     last_capture_time := t; tick := tick s |}.
Definition set_tick (n : nat) (s : State) : State :=
  {| codec := codec s; cnt := cnt s; last_idx := last_idx s;
     seen_iframe := seen_iframe s; time_q := time_q s;
     last_capture_time := last_capture_time s; tick := n |}.

(** *** A state, output and control-flow monad *)

Definition M (A : Type) : Type := State -> result A * State * list Action.

Definition ret {A} (a : A) : M A := fun s => (Ok a, s, []).

Definition bind {A B} (m : M A) (f : A -> M B) : M B :=
  fun s =>
    let '(r, s1, o1) := m s in
    match r with
    | Ok a => let '(r2, s2, o2) := f a s1 in (r2, s2, o1 ++ o2)
    | Continue => (Continue, s1, o1)
    | Return => (Return, s1, o1)
    | Raise e => (Raise e, s1, o1)
    end.

Notation "x <- m ;; k" := (bind m (fun x => k))
  (at level 61, m at next level, right associativity).
Notation "m ;; k" := (bind m (fun _ => k))
  (at level 61, right associativity).

Definition gets {A} (f : State -> A) : M A := fun s => (Ok (f s), s, []).
Definition modify (f : State -> State) : M unit := fun s => (Ok tt, f s, []).
Definition emit (a : Action) : M unit := fun s => (Ok tt, s, [a]).
Definition continue_ {A} : M A := fun s => (Continue, s, []).
Definition return_ {A} : M A := fun s => (Return, s, []).
Definition raise {A} (e : exn) : M A := fun s => (Raise e, s, []).
Definition when (c : bool) (m : M unit) : M unit := if c then m else ret tt.

(** [print(...)] *)
Definition print (l : LogLine) : M unit := emit (APrint l).

(** [assert c] *)
Definition assert_ (c : bool) : M unit :=
  if c then ret tt else raise AssertionError.

(** [a[0]] *)
Definition index0 {A} (a : list A) : M A :=
  match a with
  | x :: _ => ret x
  | [] => raise IndexError
  end.

Definition of_option {A} (e : exn) (o : option A) : M A :=
  match o with
  | Some a => ret a
  | None => raise e
  end.

Definition of_sum {A} (r : exn + A) : M A :=
  match r with
  | inr a => ret a
  | inl e => raise e
  end.

(** [time.monotonic()] *)
Definition time_monotonic : M Time :=
  fun s => (Ok (monotonic (tick s)), set_tick (S (tick s)) s,
            [AMonotonic (monotonic (tick s))]).

(** [time.time()] *)
Definition time_time : M Time :=
  fun s => (Ok (wall (tick s)), set_tick (S (tick s)) s,
            [ATime (wall (tick s))]).

(** [cv2.waitKey(1)] *)
Definition waitKey : M Z :=
  fun s => (Ok (keyboard (tick s)), set_tick (S (tick s)) s,
            [AWaitKey (keyboard (tick s))]).

(** [codec.decode(av.packet.Packet(b))] *)
Definition decode (f : PacketField) (b : bytes) : M (list VideoFrame) :=
  fun s =>
    let '(c, frames) := codec_decode (codec s) b in
    (Ok frames, set_codec c s, [ADecode f b (length frames)]).

(** *** The loop body *)

(** compressed_vipc4.py, lines 97-101: once a second the frame is put
    on the queue of the display process, before it is published. *)
Definition forward_frame (img_yuv : bytes) : M unit :=
  current_time <- time_time ;;
  last <- gets last_capture_time ;;
  last <- of_option NameError last ;;
  when (ge_1s current_time last)
    (c <- gets cnt ;;
     emit (APut img_yuv c) ;;
     modify (set_last_capture_time (Some current_time))).

(** compressed_vipc3.py, lines 95-99: the published bytes are viewed as
    an array of [H * 3 // 2] rows and [W] columns, handed to
    [extract_image] and shown; the key [q] ends the worker. *)
Definition show_frame (img_yuv : bytes) : M unit :=
  yuv_frame <- of_option ValueError (frombuffer_reshape (H * 3 / 2) W img_yuv) ;;
  bgr_frame <- of_sum (extract_image yuv_frame) ;;
  emit (AImshow bgr_frame) ;;
  key <- waitKey ;;
  when (Z.land key 255 =? 113)%Z return_.

(** Lines 85-108 of compressed_vipc3.py (94-117 of compressed_vipc4.py):
    what the loop body does with the one decoded frame. Line numbers
    are those of compressed_vipc3.py. *)
Definition publish_frame (nmsgs : nat) (evt : Event) (frame : VideoFrame)
  : M unit :=
  (* 85 *)
  let img_yuv := to_ndarray_flat frame in
  (* compressed_vipc4.py 96-101 *)
  match which with
  | compressed_vipc4 => forward_frame img_yuv
  | compressed_vipc3 => ret tt
  end ;;
  (* 86-89 *)
  img_yuv <- of_option ValueError (pack W H img_yuv) ;;
  (* 91 *)
  c <- gets cnt ;;
  q <- gets time_q ;;
  front <- index0 q ;;
  published <- time_monotonic ;;
  emit (ASend img_yuv c (ns front) (ns published)) ;;
  (* 92 *)
  modify (set_cnt (c + 1)) ;;
  (* 94-99 *)
  match which with
  | compressed_vipc3 => show_frame img_yuv
  | compressed_vipc4 => ret tt
  end ;;
  (* 101 *)
  now <- time_monotonic ;;
  q <- gets time_q ;;
  front <- index0 q ;;
  (* 102 *)
  modify (set_time_q (tl q)) ;;
  emit APop ;;
  (* 103-106 *)
  when debug
    (print (LLatency nmsgs (encodeId (idx (evta evt)))
                     (length (data (evta evt))))) ;;
  (* 108 *)
  match which with
  | compressed_vipc3 => emit ASleep
  | compressed_vipc4 => ret tt
  end.

(** The body of [for evt in msgs], [nmsgs] being [len(msgs)]. Line
    numbers are those of compressed_vipc3.py. *)
Definition handle_evt (nmsgs : nat) (evt : Event) : M unit :=
  let evta := evta evt in
  (* 62-63 *)
  last <- gets last_idx ;;
  when (debug && negb (encodeId (idx evta) =? 0)%Z
              && negb (encodeId (idx evta) =? last + 1)%Z)
    (print LDropPacket) ;;
  (* 64 *)
  modify (set_last_idx (encodeId (idx evta))) ;;
  (* 65-68 *)
  seen <- gets seen_iframe ;;
  when (negb seen && negb (is_keyframe evt))
    (when debug (print LWaitingIframe) ;; continue_) ;;
  (* 69 *)
  received <- time_monotonic ;;
  q <- gets time_q ;;
  modify (set_time_q (q ++ [received])) ;;
  emit (AAppend received) ;;
  (* 70-72: the three latencies; only the wall clock is consulted *)
  now <- time_time ;;
  (* 75-77 *)
  seen <- gets seen_iframe ;;
  when (negb seen)
    (decode Header (header evta) ;;
     modify (set_seen_iframe true)) ;;
  (* 79 *)
  frames <- decode Data (data evta) ;;
  (* 80-83 *)
  when (length frames =? 0)%nat
    (when debug (print LDropSurface) ;; continue_) ;;
  (* 84 *)
  assert_ (length frames =? 1)%nat ;;
  (* 85-108 *)
  frame <- index0 frames ;;
  publish_frame nmsgs evt frame.

(** *** The loops *)

(** One iteration of the [for] loop: [continue] ends the iteration,
    not the loop. *)
Definition iteration (body : M unit) : M unit :=
  fun s =>
    match body s with
    | (Continue, s1, o1) => (Ok tt, s1, o1)
    | other => other
    end.

(** [for evt in msgs: ...] *)
Fixpoint for_evts (nmsgs : nat) (msgs : list Event) : M unit :=
  match msgs with
  | [] => ret tt
  | evt :: rest => iteration (handle_evt nmsgs evt) ;; for_evts nmsgs rest
  end.

(** [while 1: msgs = messaging.drain_sock(sock, wait_for_one=True) ...]
    on the batches the socket delivers; [Ok] at the end means that the
    worker is waiting for the next batch. *)
Fixpoint while_1 (batches : list (list Event)) : M unit :=
  match batches with
  | [] => ret tt
  | msgs :: more => for_evts (length msgs) msgs ;; while_1 more
  end.

(** Lines 53-57 (61-66 of compressed_vipc4.py, which also reads the
    wall clock). *)
Definition initial_state : State :=
  {| codec := codec_create; cnt := 0; last_idx := -1;
     seen_iframe := false; time_q := [];
     last_capture_time := None; tick := 0 |}.

Definition decoder_setup : M unit :=
  when debug (print LStart) ;;
  match which with
  | compressed_vipc4 =>
      started <- time_time ;;
      modify (set_last_capture_time (Some started))
  | compressed_vipc3 => ret tt
  end.

(** [decoder(addr, vipc_server, vst, W, H, debug)] run on the batches
    delivered so far. *)
Definition decoder (batches : list (list Event))
  : result unit * State * list Action :=
  (decoder_setup ;; while_1 batches) initial_state.

(** *** Reading a run *)

(** The packets in arrival order. *)
Definition packets (batches : list (list Event)) : list Event :=
  concat batches.

(** The arguments of the calls of [vipc_server.send]:
    frame index, capture time, publish time, payload. *)
Record Publish := {
  pub_img : bytes;
  pub_cnt : Z;
  pub_capture : Z;
  pub_time : Z
}.

Fixpoint publishes (o : list Action) : list Publish :=
  match o with
  | [] => []
  | ASend img c cap pub :: o' =>
      {| pub_img := img; pub_cnt := c; pub_capture := cap; pub_time := pub |}
      :: publishes o'
  | _ :: o' => publishes o'
  end.

(** The receipt timestamps pushed on [time_q], in order. *)
Fixpoint receipts (o : list Action) : list Time :=
  match o with
  | [] => []
  | AAppend t :: o' => t :: receipts o'
  | _ :: o' => receipts o'
  end.

(** The frames put on the display queue. *)
Fixpoint forwards (o : list Action) : list (bytes * Z) :=
  match o with
  | [] => []
  | APut img c :: o' => (img, c) :: forwards o'
  | _ :: o' => forwards o'
  end.

Definition is_print (a : Action) : bool :=
  match a with
  | APrint _ => true
  | _ => false
  end.

(** A run with the diagnostics removed. *)
Definition silent (o : list Action) : list Action :=
  filter (fun a => negb (is_print a)) o.

(** The three components of a run. *)
Definition outcome {A} (x : result A * State * list Action) : result A :=
  fst (fst x).
Definition final {A} (x : result A * State * list Action) : State :=
  snd (fst x).
Definition trace {A} (x : result A * State * list Action) : list Action :=
  snd x.

(** The two loops flattened: every packet with the size of its batch. *)
Definition tagged (batches : list (list Event)) : list (nat * Event) :=
  flat_map (fun msgs => map (pair (length msgs)) msgs) batches.

Fixpoint run (evts : list (nat * Event)) : M unit :=
  match evts with
  | [] => ret tt
  | (nmsgs, evt) :: rest => iteration (handle_evt nmsgs evt) ;; run rest
  end.

(** The packets from the first keyframe on: those the worker accepts. *)
Fixpoint accepted (evts : list Event) : list Event :=
  match evts with
  | [] => []
  | evt :: rest => if is_keyframe evt then evts else accepted rest
  end.

(** The decoder context a packet's data is decoded in: the header is
    fed first when no keyframe has been seen yet. *)
Definition codec_for_data (s : State) (evt : Event) : Codec :=
  if seen_iframe s
  then codec s
  else fst (codec_decode (codec s) (header (evta evt))).

(** The frames [codec.decode] returns for the packet's data. *)
Definition frames_of (s : State) (evt : Event) : list VideoFrame :=
  snd (codec_decode (codec_for_data s evt) (data (evta evt))).

(** The packet passes the keyframe gate of lines 65-68. *)
Definition passes_gate (s : State) (evt : Event) : bool :=
  seen_iframe s || is_keyframe evt.

(** The gap check of line 62, debug flag apart. *)
Definition gap (last : Z) (evt : Event) : bool :=
  negb (encodeId (idx (evta evt)) =? 0)%Z
  && negb (encodeId (idx (evta evt)) =? last + 1)%Z.

(** The diagnostic of lines 62-63. *)
Definition gap_report (s : State) (evt : Event) : list Action :=
  if debug && gap (last_idx s) evt then [APrint LDropPacket] else [].

(** The state of an accepted packet after line 79, and what the worker
    has done for it up to there. *)
Definition received (s : State) (evt : Event) : State :=
  {| codec := fst (codec_decode (codec_for_data s evt) (data (evta evt)));
     cnt := cnt s;
     last_idx := encodeId (idx (evta evt));
     seen_iframe := true;
     time_q := time_q s ++ [monotonic (tick s)];
     last_capture_time := last_capture_time s;
     tick := S (S (tick s)) |}.

Definition header_trace (s : State) (evt : Event) : list Action :=
  if seen_iframe s then []
  else [ADecode Header (header (evta evt))
          (length (snd (codec_decode (codec s) (header (evta evt)))))].

Definition receive_trace (s : State) (evt : Event) : list Action :=
  gap_report s evt
  ++ [AMonotonic (monotonic (tick s)); AAppend (monotonic (tick s));
      ATime (wall (S (tick s)))]
  ++ header_trace s evt
  ++ [ADecode Data (data (evta evt)) (length (frames_of s evt))].

(** What [forward_frame] leaves behind when the last forwarded frame
    dates from [last]. *)
Definition forwarded (s : State) (last : Time) : bool :=
  ge_1s (wall (tick s)) last.

Definition forward_trace (s : State) (last : Time) (frame : VideoFrame)
  : list Action :=
  ATime (wall (tick s))
  :: (if forwarded s last then [APut (to_ndarray_flat frame) (cnt s)] else []).

Definition forward_state (s : State) (last : Time) : State :=
  set_last_capture_time
    (Some (if forwarded s last then wall (tick s) else last))
    (set_tick (S (tick s)) s).

Definition latency_report (nmsgs : nat) (evt : Event) : list Action :=
  if debug
  then [APrint (LLatency nmsgs (encodeId (idx (evta evt)))
                         (length (data (evta evt))))]
  else [].

(** The state the loop is entered in, and what [decoder] has done
    before. *)
Definition setup_state : State :=
  match which with
  | compressed_vipc4 =>
      set_last_capture_time (Some (wall 0)) (set_tick 1 initial_state)
  | compressed_vipc3 => initial_state
  end.

Definition setup_trace : list Action :=
  (if debug then [APrint LStart] else [])
  ++ match which with
     | compressed_vipc4 => [ATime (wall 0)]
     | compressed_vipc3 => []
     end.

Definition is_send (a : Action) : bool :=
  match a with
  | ASend _ _ _ _ => true
  | _ => false
  end.

(** Every call of [vipc_server.send] comes right after a reading of
    the monotonic clock and passes that reading as publish time. *)
Definition stamped (o : list Action) : Prop :=
  forall o1 img c cap pub o2,
    o = o1 ++ ASend img c cap pub :: o2 ->
    exists o0 t, o1 = o0 ++ [AMonotonic t] /\ pub = ns t.

(** The packets accepted by a worker in state [s]. *)
Definition accepted_from (s : State) (evts : list Event) : list Event :=
  if seen_iframe s then evts else accepted evts.

(** Diagnostics and readings of the wall clock. *)
Definition quiet (a : Action) : bool :=
  match a with
  | APrint _ | ATime _ => true
  | _ => false
  end.

(** The state with [last_idx] blanked. *)
Definition forget_last_idx (s : State) : State := set_last_idx 0 s.

(** The packet with [encodeId] blanked. *)
Definition blank_encodeId (e : Event) : Event :=
  {| evta :=
       {| idx := {| encodeId := 0;
                    flags := flags (idx (evta e));
                    timestampSof := timestampSof (idx (evta e));
                    timestampEof := timestampEof (idx (evta e)) |};
          header := header (evta e);
          data := data (evta e);
          unixTimestampNanos := unixTimestampNanos (evta e) |};
     logMonoTime := logMonoTime e |}.

(** Every pop of [time_q] comes right after a publish, with only the
    clock reading of line 101 in between. *)
Fixpoint pops_follow_publish (o : list Action) : bool :=
  match o with
  | [] => true
  | ASend _ _ _ _ :: AMonotonic _ :: APop :: o' => pops_follow_publish o'
  | APop :: _ => false
  | _ :: o' => pops_follow_publish o'
  end.

(** The decoder honours its contract: at most one frame per packet,
    of the dimensions of the stream. *)
Definition decoder_contract : Prop :=
  forall c b,
    match snd (codec_decode c b) with
    | [] => True
    | [frame] => wf_frame W H frame
    | _ :: _ :: _ => False
    end.

(** The readings of the wall clock at which a frame was put on the
    display queue: [forward_frame] reads the clock right before it
    puts. *)
Fixpoint forward_times (o : list Action) : list Time :=
  match o with
  | [] => []
  | ATime t :: o' =>
      match o' with
      | APut _ _ :: _ => t :: forward_times o'
      | _ => forward_times o'
      end
  | _ :: o' => forward_times o'
  end.

(** Each time is at least a second after the one before, [last] being
    the one before the first; the comparison is the script's own. *)
Fixpoint spaced (last : Time) (ts : list Time) : bool :=
  match ts with
  | [] => true
  | t :: ts' => ge_1s t last && spaced t ts'
  end.

Definition starts_with_put (o : list Action) : bool :=
  match o with
  | APut _ _ :: _ => true
  | _ => false
  end.

(** Number of data packets for which the decoder returned no frame. *)
Fixpoint dropped_surfaces (o : list Action) : nat :=
  match o with
  | [] => O
  | ADecode Data _ O :: o' => S (dropped_surfaces o')
  | _ :: o' => dropped_surfaces o'
  end.

(** Number of data packets submitted to the decoder. *)
Fixpoint data_decodes (o : list Action) : nat :=
  match o with
  | [] => O
  | ADecode Data _ _ :: o' => S (data_decodes o')
  | _ :: o' => data_decodes o'
  end.

(** Number of header submissions. *)
Fixpoint header_decodes (o : list Action) : nat :=
  match o with
  | [] => O
  | ADecode Header _ _ :: o' => S (header_decodes o')
  | _ :: o' => header_decodes o'
  end.

(** Two packets that differ at most in [encodeId]. *)
Definition same_but_encodeId (e1 e2 : Event) : Prop :=
  flags (idx (evta e1)) = flags (idx (evta e2)) /\
  timestampSof (idx (evta e1)) = timestampSof (idx (evta e2)) /\
  timestampEof (idx (evta e1)) = timestampEof (idx (evta e2)) /\
  header (evta e1) = header (evta e2) /\
  data (evta e1) = data (evta e2) /\
  unixTimestampNanos (evta e1) = unixTimestampNanos (evta e2) /\
  logMonoTime e1 = logMonoTime e2.

(** *** Vocabulary of further properties *)

(** The calls of [codec.decode] in order: field and bytes. *)
Fixpoint decode_calls (o : list Action) : list (PacketField * bytes) :=
  match o with
  | [] => []
  | ADecode f b _ :: o' => (f, b) :: decode_calls o'
  | _ :: o' => decode_calls o'
  end.

(** What the decoder is to be fed for the packets [evts] by a worker in
    state [s]: the header of the first accepted packet unless a keyframe
    has been seen already, then the data of every accepted packet. *)
Definition feed (s : State) (evts : list Event) : list (PacketField * bytes) :=
  match accepted_from s evts with
  | [] => []
  | first :: rest =>
      (if seen_iframe s then [] else [(Header, header (evta first))])
      ++ map (fun e => (Data, data (evta e))) (first :: rest)
  end.

(** Every timestamp waiting in [time_q] is an earlier reading of the
    monotonic clock. *)
Definition time_q_from_clock (s : State) : Prop :=
  Forall (fun t => exists k, (k < tick s)%nat /\ t = monotonic k) (time_q s).

(** The monotonic clock does not run backwards, as seen through
    [int(t * 1e9)]. *)
Definition clock_monotone : Prop :=
  forall i j, (i <= j)%nat -> (ns (monotonic i) <= ns (monotonic j))%Z.

(** What lines 97-108 of compressed_vipc3.py do once a frame has been
    converted for display: show it, read the keyboard, pop [time_q],
    sleep. *)
Definition display_action (a : Action) : bool :=
  match a with
  | AImshow _ | AWaitKey _ | ASleep | APop => true
  | _ => false
  end.

(** Two runs over the same packets, batched in any way. *)
Definition same_packets (evts1 evts2 : list (nat * Event)) : Prop :=
  map snd evts1 = map snd evts2.

(** [CompressedVipc.join] of compressed_vipc4.py with the one stream of
    [__main__]: what the queue of the display process gets to hold, the
    frames the worker forwarded and, once the worker has ended, the
    [None] that [join] puts. A picture is represented by the frame it
    was converted from. *)
Definition frame_queue (x : result unit * State * list Action)
  : list (option (bytes * Z)) :=
  map Some (forwards (trace x))
  ++ match outcome x with
     | Ok _ => []
     | _ => [None]
     end.

(** *** Symbolic execution of the loop body *)

Ltac unfold_ops :=
  unfold decode, time_monotonic, time_time, waitKey, print, emit, gets,
    modify, when, assert_, index0, of_option, of_sum, continue_, return_,
    raise, bind, ret, frombuffer_reshape, extract_image,
    set_codec, set_cnt, set_last_idx, set_seen_iframe, set_time_q,
    set_last_capture_time, set_tick in *.

(** The condition a boolean expression starts with. *)
Ltac first_atom x :=
  lazymatch x with
  | negb ?y => first_atom y
  | andb ?y _ => first_atom y
  | orb ?y _ => first_atom y
  | _ => x
  end.

Ltac case_split :=
  match goal with
  | |- context [match ?x with _ => _ end] =>
      match x with
      | context [match _ with _ => _ end] => fail 1
      | _ => let y := first_atom x in destruct y eqn:?
      end
  end.

Ltac exec :=
  unfold_ops; cbn in *;
  repeat (case_split; cbn in *; try discriminate; try congruence).

(** *** Laws of the monad and of the loops *)

Lemma bind_ret_l {A B} (a : A) (f : A -> M B) s :
  bind (ret a) f s = f a s.
Proof.
  unfold bind, ret. destruct (f a s) as [[r s1] o1]. reflexivity.
Qed.

Lemma bind_assoc {A B C} (m : M A) (f : A -> M B) (g : B -> M C) s :
  bind (bind m f) g s = bind m (fun a => bind (f a) g) s.
Proof.
  unfold bind. destruct (m s) as [[r s1] o1].
  destruct r; try reflexivity.
  destruct (f a s1) as [[r2 s2] o2].
  destruct r2; try reflexivity.
  destruct (g a0 s2) as [[r3 s3] o3].
  now rewrite app_assoc.
Qed.

Lemma bind_ext {A B} (m : M A) (f g : A -> M B) s :
  (forall a s', f a s' = g a s') -> bind m f s = bind m g s.
Proof.
  intros E. unfold bind. destruct (m s) as [[r s1] o1].
  destruct r; try reflexivity. now rewrite E.
Qed.

Lemma run_app evts1 evts2 s :
  run (evts1 ++ evts2) s = (run evts1 ;; run evts2) s.
Proof.
  revert s. induction evts1 as [|[n e] evts1 IH]; intros s; cbn [run app].
  - now rewrite bind_ret_l.
  - rewrite bind_assoc. apply bind_ext. intros _ s'. apply IH.
Qed.

Lemma for_evts_run nmsgs msgs s :
  for_evts nmsgs msgs s = run (map (pair nmsgs) msgs) s.
Proof.
  revert s. induction msgs as [|e msgs IH]; intros s; cbn [for_evts run map].
  - reflexivity.
  - apply bind_ext. intros _ s'. apply IH.
Qed.

Lemma while_1_run batches s :
  while_1 batches s = run (tagged batches) s.
Proof.
  revert s. induction batches as [|msgs more IH]; intros s.
  - reflexivity.
  - cbn [while_1 tagged flat_map]. rewrite run_app.
    unfold bind. rewrite for_evts_run.
    destruct (run (map (pair (length msgs)) msgs) s) as [[r s1] o1].
    destruct r; try reflexivity. now rewrite IH.
Qed.

Lemma tagged_packets batches :
  map snd (tagged batches) = packets batches.
Proof.
  unfold tagged, packets.
  induction batches as [|msgs more IH]; cbn; [reflexivity|].
  rewrite map_app, IH, map_map. cbn. now rewrite map_id.
Qed.


(** One more packet: the run goes on only if the iteration ends
    normally. *)
Lemma run_cons n e rest s :
  run ((n, e) :: rest) s =
  match iteration (handle_evt n e) s with
  | (Ok _, s1, o1) =>
      (outcome (run rest s1), final (run rest s1), o1 ++ trace (run rest s1))
  | (r, s1, o1) => (r, s1, o1)
  end.
Proof.
  cbn [run]. unfold bind.
  destruct (iteration (handle_evt n e) s) as [[r s1] o1].
  destruct r; try reflexivity.
  destruct (run rest s1) as [[r2 s2] o2]. reflexivity.
Qed.

(** The readers of a run distribute over concatenation. *)
Lemma publishes_app o1 o2 : publishes (o1 ++ o2) = publishes o1 ++ publishes o2.
Proof.
  induction o1 as [|a o1 IH]; [reflexivity|].
  destruct a; cbn; now rewrite ?IH.
Qed.

Lemma receipts_app o1 o2 : receipts (o1 ++ o2) = receipts o1 ++ receipts o2.
Proof.
  induction o1 as [|a o1 IH]; [reflexivity|].
  destruct a; cbn; now rewrite ?IH.
Qed.



Lemma dropped_surfaces_app o1 o2 :
  dropped_surfaces (o1 ++ o2) = (dropped_surfaces o1 + dropped_surfaces o2)%nat.
Proof.
  induction o1 as [|a o1 IH]; [reflexivity|].
  destruct a as [| | | |f b n| | | | | |]; cbn; rewrite ?IH; try reflexivity.
  destruct f, n; cbn; now rewrite ?IH.
Qed.

Lemma data_decodes_app o1 o2 :
  data_decodes (o1 ++ o2) = (data_decodes o1 + data_decodes o2)%nat.
Proof.
  induction o1 as [|a o1 IH]; [reflexivity|].
  destruct a as [| | | |f b n| | | | | |]; cbn; rewrite ?IH; try reflexivity.
  destruct f; cbn; now rewrite ?IH.
Qed.

Lemma header_decodes_app o1 o2 :
  header_decodes (o1 ++ o2) = (header_decodes o1 + header_decodes o2)%nat.
Proof.
  induction o1 as [|a o1 IH]; [reflexivity|].
  destruct a as [| | | |f b n| | | | | |]; cbn; rewrite ?IH; try reflexivity.
  destruct f; cbn; now rewrite ?IH.
Qed.

Lemma silent_app o1 o2 : silent (o1 ++ o2) = silent o1 ++ silent o2.
Proof. apply filter_app. Qed.

(** *** The loop body, case by case *)

(** A packet that does not pass the keyframe gate. *)
Lemma handle_gate_closed n e s :
  passes_gate s e = false ->
  handle_evt n e s =
  (Continue, set_last_idx (encodeId (idx (evta e))) s,
   gap_report s e ++ (if debug then [APrint LWaitingIframe] else [])).
Proof.
  unfold passes_gate, gap_report, gap. intros G.
  apply orb_false_elim in G as [G1 G2].
  destruct s as [c k l sn q lc tk]. cbn in G1. subst sn.
  unfold handle_evt. exec; reflexivity.
Qed.

(** A packet that passes it: what happens next depends on the number
    of frames the decoder returns. *)
Lemma handle_gate_open n e s :
  passes_gate s e = true ->
  handle_evt n e s =
  match frames_of s e with
  | [] =>
      (Continue, received s e,
       receive_trace s e ++ (if debug then [APrint LDropSurface] else []))
  | [frame] =>
      let x := publish_frame n e frame (received s e) in
      (outcome x, final x, receive_trace s e ++ trace x)
  | _ :: _ :: _ => (Raise AssertionError, received s e, receive_trace s e)
  end.
Proof.
  unfold passes_gate, receive_trace, header_trace, received, frames_of,
    codec_for_data, gap_report, gap, outcome, final, trace.
  intros G. destruct s as [c k l sn q lc tk]. cbn in G |- *.
  unfold handle_evt. exec; reflexivity.
Qed.

(** compressed_vipc3.py: the frame is published and the worker then
    dies in [show_frame]. *)
Lemma publish_frame_vipc3 n e frame s :
  which = compressed_vipc3 ->
  publish_frame n e frame s =
  match pack W H (to_ndarray_flat frame), time_q s with
  | None, _ => (Raise ValueError, s, [])
  | Some img, [] => (Raise IndexError, s, [])
  | Some img, front :: _ =>
      (Raise (if (length img =? H * 3 / 2 * W)%nat
              then AttributeError else ValueError),
       set_cnt (cnt s + 1) (set_tick (S (tick s)) s),
       [AMonotonic (monotonic (tick s));
        ASend img (cnt s) (ns front) (ns (monotonic (tick s)))])
  end.
Proof.
  intros Hw. destruct s as [c k l sn q lc tk].
  unfold publish_frame, show_frame. rewrite Hw.
  exec; reflexivity.
Qed.

(** compressed_vipc4.py: the frame is forwarded if a second has
    passed, published, and its timestamp is popped. *)
Lemma publish_frame_vipc4 n e frame s :
  which = compressed_vipc4 ->
  publish_frame n e frame s =
  match last_capture_time s with
  | None => (Raise NameError, set_tick (S (tick s)) s, [ATime (wall (tick s))])
  | Some last =>
      match pack W H (to_ndarray_flat frame), time_q s with
      | None, _ =>
          (Raise ValueError, forward_state s last, forward_trace s last frame)
      | Some img, [] =>
          (Raise IndexError, forward_state s last, forward_trace s last frame)
      | Some img, front :: rest =>
          (Ok tt,
           set_time_q rest
             (set_cnt (cnt s + 1)
                (set_tick (S (S (S (tick s)))) (forward_state s last))),
           forward_trace s last frame
           ++ [AMonotonic (monotonic (S (tick s)));
               ASend img (cnt s) (ns front) (ns (monotonic (S (tick s))));
               AMonotonic (monotonic (S (S (tick s))));
               APop]
           ++ latency_report n e)
      end
  end.
Proof.
  intros Hw. destruct s as [c k l sn q lc tk].
  unfold publish_frame, forward_frame, forward_state, forward_trace,
    forwarded, latency_report.
  rewrite Hw.
  exec; reflexivity.
Qed.

(** Case analysis on one iteration of the loop. *)
Ltac step_cases n e s :=
  let G := fresh "G" in
  let F := fresh "F" in
  let Hw := fresh "Hw" in
  let P := fresh "P" in
  let Q := fresh "Q" in
  let L := fresh "L" in
  destruct (passes_gate s e) eqn:G;
  [ rewrite (handle_gate_open n e s G);
    destruct (frames_of s e) as [|? [|? ?]] eqn:F;
    [ | destruct which eqn:Hw;
        [ rewrite publish_frame_vipc3 by exact Hw
        | rewrite publish_frame_vipc4 by exact Hw ];
        cbn [received time_q last_capture_time];
        try (destruct (last_capture_time s) eqn:L);
        try (match goal with
             | |- context [pack W H ?x] => destruct (pack W H x) eqn:P
             end);
        try (match goal with
             | |- context [match time_q s ++ ?t with _ => _ end] =>
                 destruct (time_q s ++ t) eqn:Q;
                 [ now (exfalso; destruct (time_q s); discriminate) | ]
             end)
      | ]
  | rewrite (handle_gate_closed n e s G) ];
  cbn [outcome final trace fst snd] in *.


Ltac split_ifs :=
  repeat match goal with
         | |- context [if ?c then _ else _] => destruct c eqn:?
         end.

Ltac open_traces :=
  unfold receive_trace, header_trace, gap_report, forward_trace,
    forward_state, latency_report in *.

Ltac step_exec n e s :=
  unfold iteration; step_cases n e s; open_traces; split_ifs;
  cbn in *;
  try match goal with
      | Q : time_q s ++ _ = _ :: _ |- _ => rewrite ?Q
      end;
  try match goal with
      | F : frames_of s e = _ |- _ => rewrite ?F
      end;
  cbn in *.

(** *** From one iteration to a run *)

Lemma decoder_run batches :
  decoder batches =
  (outcome (run (tagged batches) setup_state),
   final (run (tagged batches) setup_state),
   setup_trace ++ trace (run (tagged batches) setup_state)).
Proof.
  unfold decoder, setup_state, setup_trace, decoder_setup.
  unfold bind at 1.
  assert (E : (when debug (print LStart);;
               match which with
               | compressed_vipc3 => ret tt
               | compressed_vipc4 =>
                   started <- time_time;;
                   modify (set_last_capture_time (Some started))
               end) initial_state =
              (Ok tt,
               match which with
               | compressed_vipc4 =>
                   set_last_capture_time (Some (wall 0))
                     (set_tick 1 initial_state)
               | compressed_vipc3 => initial_state
               end,
               (if debug then [APrint LStart] else [])
               ++ match which with
                  | compressed_vipc4 => [ATime (wall 0)]
                  | compressed_vipc3 => []
                  end)).
  { destruct which, debug; reflexivity. }
  rewrite E. rewrite while_1_run.
  destruct (run (tagged batches) _) as [[r s1] o1]. reflexivity.
Qed.

Lemma setup_trace_publishes : publishes setup_trace = [].
Proof. unfold setup_trace. destruct debug, which; reflexivity. Qed.

Lemma setup_trace_receipts : receipts setup_trace = [].
Proof. unfold setup_trace. destruct debug, which; reflexivity. Qed.

Lemma setup_state_fields :
  cnt setup_state = 0%Z /\ time_q setup_state = [] /\
  seen_iframe setup_state = false /\ last_idx setup_state = (-1)%Z.
Proof. unfold setup_state. destruct which; repeat split. Qed.

(** *** First in, first out *)

Lemma firstn_app_skipn {A} (a b : nat) (l r : list A) :
  (a <= length l)%nat ->
  firstn (a + b) (l ++ r) = firstn a l ++ firstn b (skipn a l ++ r).
Proof.
  intros Ha.
  rewrite <- (firstn_skipn a l) at 1.
  rewrite <- app_assoc.
  assert (La : length (firstn a l) = a) by (rewrite length_firstn; lia).
  rewrite <- La at 1. now rewrite firstn_app_2.
Qed.

Lemma step_fifo n e s :
  let x := iteration (handle_evt n e) s in
  let q := time_q s ++ receipts (trace x) in
  map pub_capture (publishes (trace x)) =
    map ns (firstn (length (publishes (trace x))) q) /\
  (outcome x = Ok tt ->
   time_q (final x) = skipn (length (publishes (trace x))) q).
Proof.
  step_exec n e s.
  all: rewrite ?app_nil_r.
  all: split; [reflexivity | try discriminate; intros _; try reflexivity].
Qed.

Lemma run_fifo evts :
  forall s,
    map pub_capture (publishes (trace (run evts s))) =
    map ns (firstn (length (publishes (trace (run evts s))))
                   (time_q s ++ receipts (trace (run evts s)))).
Proof.
  induction evts as [|[n e] rest IH]; intros s; [reflexivity|].
  rewrite run_cons.
  pose proof (step_fifo n e s) as [A B]. cbn zeta in A, B.
  destruct (iteration (handle_evt n e) s) as [[r s1] o1].
  unfold outcome, final, trace in A, B. cbn [fst snd] in A, B.
  destruct r as [[]| | |]; try exact A.
  cbn [trace snd].
  specialize (B eq_refl). specialize (IH s1).
  rewrite publishes_app, receipts_app, length_app, map_app, IH, app_assoc.
  assert (Hlen : (length (publishes o1)
                  <= length (time_q s ++ receipts o1))%nat).
  { apply (f_equal (@length Z)) in A.
    rewrite !length_map, length_firstn in A. lia. }
  rewrite firstn_app_skipn by exact Hlen.
  now rewrite map_app, A, B.
Qed.

(** *** Publish times *)

Lemma stamped_nil : stamped [].
Proof. intros [|a o1] img c cap pub o2 E; discriminate. Qed.

Lemma stamped_cons a o :
  is_send a = false -> stamped o -> stamped (a :: o).
Proof.
  intros Ha Ho [|a' o1] img c cap pub o2 E; inversion E; subst.
  - discriminate.
  - destruct (Ho _ _ _ _ _ _ eq_refl) as (o0 & t & -> & ->).
    now exists (a' :: o0), t.
Qed.

Lemma stamped_send t img c cap o :
  stamped o -> stamped (AMonotonic t :: ASend img c cap (ns t) :: o).
Proof.
  intros Ho [|a1 [|a2 o1]] img' c' cap' pub o2 E; inversion E; subst.
  - now exists [], t.
  - destruct (Ho _ _ _ _ _ _ eq_refl) as (o0 & t' & -> & ->).
    now exists (AMonotonic t :: ASend img c cap (ns t) :: o0), t'.
Qed.

Lemma stamped_app o1 o2 : stamped o1 -> stamped o2 -> stamped (o1 ++ o2).
Proof.
  intros H1 H2 a img c cap pub b E.
  apply app_eq_app in E as [l [[-> E] | [-> E]]].
  - destruct l as [|x l].
    + cbn in E. destruct (H2 [] _ _ _ _ _ (eq_sym E)) as (o0 & t & E0 & _).
      now destruct o0.
    + inversion E; subst. apply (H1 _ _ _ _ _ _ eq_refl).
  - destruct (H2 _ _ _ _ _ _ E) as (o0 & t & -> & ->).
    exists (o1 ++ o0), t. now rewrite app_assoc.
Qed.

Ltac solve_stamped :=
  repeat first
    [ apply stamped_nil
    | apply stamped_send
    | apply stamped_cons; [reflexivity|] ].

Lemma step_stamped n e s : stamped (trace (iteration (handle_evt n e) s)).
Proof.
  step_exec n e s; solve_stamped.
Qed.

Lemma run_stamped evts : forall s, stamped (trace (run evts s)).
Proof.
  induction evts as [|[n e] rest IH]; intros s.
  - apply stamped_nil.
  - rewrite run_cons. pose proof (step_stamped n e s) as A.
    destruct (iteration (handle_evt n e) s) as [[r s1] o1].
    destruct r; try exact A.
    apply stamped_app; [exact A | apply IH].
Qed.

Lemma setup_trace_stamped : stamped setup_trace.
Proof.
  unfold setup_trace. destruct debug, which; cbn; solve_stamped.
Qed.

(** *** Counting publishes *)

Lemma map_seq_shift (f : Z -> Z) (a n : nat) :
  map (fun i => f (Z.of_nat (a + i))) (seq 0 n) =
  map (fun i => f (Z.of_nat i)) (seq a n).
Proof.
  revert a. induction n as [|n IH]; intros a; [reflexivity|].
  cbn [seq map]. rewrite Nat.add_0_r. f_equal.
  rewrite <- IH, <- (seq_shift n 0), map_map.
  apply map_ext. intros i. now rewrite Nat.add_succ_r.
Qed.

Lemma step_count n e s :
  let x := iteration (handle_evt n e) s in
  let p := length (publishes (trace x)) in
  map pub_cnt (publishes (trace x)) =
    map (fun i => cnt s + Z.of_nat i)%Z (seq 0 p) /\
  cnt (final x) = (cnt s + Z.of_nat p)%Z /\
  (outcome x = Ok tt ->
   seen_iframe (final x) = passes_gate s e /\
   data_decodes (trace x) = (if passes_gate s e then 1 else 0)%nat /\
   (p + dropped_surfaces (trace x) = if passes_gate s e then 1 else 0)%nat).
Proof.
  step_exec n e s.
  all: rewrite ?Z.add_0_r.
  all: repeat split; try reflexivity; try discriminate.
  all: match goal with
       | G : passes_gate _ _ = false |- _ =>
           now apply orb_false_elim in G
       end.
Qed.

Lemma accepted_from_step n e s rest :
  outcome (iteration (handle_evt n e) s) = Ok tt ->
  (length (accepted_from s (e :: rest)) =
   (if passes_gate s e then 1 else 0)
   + length (accepted_from (final (iteration (handle_evt n e) s)) rest))%nat.
Proof.
  intros Hok. pose proof (step_count n e s) as (_ & _ & C).
  destruct (C Hok) as (Hseen & _).
  unfold accepted_from. rewrite Hseen. unfold passes_gate.
  destruct (seen_iframe s); cbn; [reflexivity|].
  destruct (is_keyframe e); reflexivity.
Qed.

Lemma run_count evts :
  forall s,
    let x := run evts s in
    let p := length (publishes (trace x)) in
    map pub_cnt (publishes (trace x)) =
      map (fun i => cnt s + Z.of_nat i)%Z (seq 0 p) /\
    cnt (final x) = (cnt s + Z.of_nat p)%Z /\
    (outcome x = Ok tt ->
     data_decodes (trace x) = length (accepted_from s (map snd evts)) /\
     (p + dropped_surfaces (trace x))%nat
     = length (accepted_from s (map snd evts))).
Proof.
  induction evts as [|[n e] rest IH]; intros s.
  - cbn. rewrite Z.add_0_r. repeat split.
    all: unfold accepted_from; now destruct (seen_iframe s).
  - cbn zeta. rewrite run_cons. cbn [map snd].
    pose proof (step_count n e s) as (A & B & C).
    pose proof (accepted_from_step n e s (map snd rest)) as D.
    cbn zeta in A, B, C.
    destruct (iteration (handle_evt n e) s) as [[r s1] o1].
    unfold outcome, final, trace in *. cbn [fst snd] in *.
    destruct r as [[]| | |]; cbn [fst snd] in *;
      try (split; [exact A | split; [exact B | discriminate]]).
    destruct (IH s1) as (A' & B' & C'). cbn zeta in A', B', C'.
    unfold outcome, final, trace in *. cbn [fst snd] in *.
    rewrite publishes_app, length_app, map_app, seq_app, map_app.
    rewrite data_decodes_app, dropped_surfaces_app.
    repeat split.
    + rewrite A, A', B. f_equal. cbn [Nat.add].
      rewrite <- (map_seq_shift (fun z => cnt s + z)%Z).
      apply map_ext. intros i. lia.
    + rewrite B', B. lia.
    + destruct (C eq_refl) as (_ & C1 & _).
      destruct (C' H0) as (C1' & _). rewrite (D eq_refl). lia.
    + destruct (C eq_refl) as (_ & _ & C2).
      destruct (C' H0) as (_ & C2'). rewrite (D eq_refl). lia.
Qed.

(** *** Waiting for the first keyframe *)

Lemma forallb_quiet_prints o :
  forallb is_print o = true -> forallb quiet o = true.
Proof.
  induction o as [|a o IH]; [reflexivity|].
  cbn. intros E. apply andb_true_iff in E as [Ea Eo].
  rewrite (IH Eo). now destruct a.
Qed.

Lemma quiet_publishes o : forallb quiet o = true -> publishes o = [].
Proof.
  induction o as [|a o IH]; [reflexivity|].
  cbn. intros E. apply andb_true_iff in E as [Ea Eo].
  destruct a; try discriminate; now apply IH.
Qed.

Lemma quiet_header_decodes o :
  forallb quiet o = true -> header_decodes o = O.
Proof.
  induction o as [|a o IH]; [reflexivity|].
  cbn. intros E. apply andb_true_iff in E as [Ea Eo].
  destruct a; try discriminate; now apply IH.
Qed.

Lemma setup_trace_quiet : forallb quiet setup_trace = true.
Proof. unfold setup_trace. now destruct debug, which. Qed.

Lemma gap_report_prints s e : forallb is_print (gap_report s e) = true.
Proof. unfold gap_report. now destruct (debug && gap (last_idx s) e). Qed.

Lemma step_awaiting n e s :
  passes_gate s e = false ->
  exists o,
    iteration (handle_evt n e) s
    = (Ok tt, set_last_idx (encodeId (idx (evta e))) s, o)
    /\ forallb is_print o = true.
Proof.
  intros G. unfold iteration. rewrite (handle_gate_closed n e s G).
  eexists. split; [reflexivity|].
  rewrite forallb_app, gap_report_prints. now destruct debug.
Qed.

Lemma last_cons_default {A} (x : A) l d d' :
  last (x :: l) d = last (x :: l) d'.
Proof.
  revert x. induction l as [|y l IH]; intros x; [reflexivity|].
  change (last (y :: l) d = last (y :: l) d'). apply IH.
Qed.

Lemma run_awaiting evts :
  forall s,
    seen_iframe s = false ->
    Forall (fun ne => is_keyframe (snd ne) = false) evts ->
    outcome (run evts s) = Ok tt /\
    forallb is_print (trace (run evts s)) = true /\
    final (run evts s)
    = set_last_idx
        (last (map (fun ne => encodeId (idx (evta (snd ne)))) evts)
              (last_idx s)) s.
Proof.
  induction evts as [|[n e] rest IH]; intros s Hs Hall.
  - cbn. repeat split. now destruct s.
  - inversion Hall as [|x l Hk Hrest]; subst. cbn [snd] in Hk.
    assert (G : passes_gate s e = false)
      by (unfold passes_gate; now rewrite Hs, Hk).
    destruct (step_awaiting n e s G) as (o & E & Ho).
    rewrite run_cons, E. cbn [outcome final trace fst snd].
    destruct (IH (set_last_idx (encodeId (idx (evta e))) s)
                (eq_trans eq_refl Hs) Hrest) as (A & B & C).
    repeat split.
    + exact A.
    + now rewrite forallb_app, Ho, B.
    + rewrite C. cbn [map snd].
      destruct rest as [|[n' e'] rest']; [reflexivity|].
      cbn [map last]. unfold set_last_idx. cbn. f_equal.
      apply last_cons_default.
Qed.

Lemma step_synced n e s :
  seen_iframe s = true ->
  header_decodes (trace (iteration (handle_evt n e) s)) = O /\
  (outcome (iteration (handle_evt n e) s) = Ok tt ->
   seen_iframe (final (iteration (handle_evt n e) s)) = true).
Proof.
  intros Hs. split.
  - step_exec n e s; congruence.
  - intros Hok. pose proof (step_count n e s) as (_ & _ & C).
    destruct (C Hok) as (-> & _). unfold passes_gate. now rewrite Hs.
Qed.

Lemma run_synced evts :
  forall s,
    seen_iframe s = true -> header_decodes (trace (run evts s)) = O.
Proof.
  induction evts as [|[n e] rest IH]; intros s Hs; [reflexivity|].
  rewrite run_cons. destruct (step_synced n e s Hs) as [A B].
  destruct (iteration (handle_evt n e) s) as [[r s1] o1].
  destruct r as [[]| | |]; cbn [outcome final trace fst snd] in *;
    try exact A.
  now rewrite header_decodes_app, A, (IH s1 (B eq_refl)).
Qed.

Lemma step_first_keyframe n e s :
  seen_iframe s = false ->
  is_keyframe e = true ->
  exists nh nd post,
    trace (iteration (handle_evt n e) s)
    = gap_report s e
      ++ [AMonotonic (monotonic (tick s)); AAppend (monotonic (tick s));
          ATime (wall (S (tick s)));
          ADecode Header (header (evta e)) nh;
          ADecode Data (data (evta e)) nd]
      ++ post
    /\ header_decodes post = O.
Proof.
  intros Hs Hk.
  assert (G : passes_gate s e = true)
    by (unfold passes_gate; now rewrite Hs, Hk).
  step_exec n e s; try congruence.
  all: do 3 eexists; split; reflexivity.
Qed.

(** *** The queue is never read empty *)

Lemma step_no_index_error n e s :
  outcome (iteration (handle_evt n e) s) <> Raise IndexError.
Proof.
  step_exec n e s; discriminate.
Qed.

Lemma run_no_index_error evts :
  forall s, outcome (run evts s) <> Raise IndexError.
Proof.
  induction evts as [|[n e] rest IH]; intros s; [discriminate|].
  rewrite run_cons. pose proof (step_no_index_error n e s) as A.
  destruct (iteration (handle_evt n e) s) as [[r s1] o1].
  destruct r as [[]| | |]; cbn [outcome final trace fst snd] in *;
    try exact A.
  apply IH.
Qed.

(** *** compressed_vipc3.py stops at its first publish *)

Lemma step_vipc3 n e s :
  which = compressed_vipc3 ->
  publishes (trace (iteration (handle_evt n e) s)) = [] \/
  (length (publishes (trace (iteration (handle_evt n e) s))) = 1%nat /\
   (outcome (iteration (handle_evt n e) s) = Raise AttributeError \/
    outcome (iteration (handle_evt n e) s) = Raise ValueError)).
Proof.
  intros Hv. step_exec n e s; try discriminate; auto.
Qed.

Lemma run_vipc3 evts :
  which = compressed_vipc3 ->
  forall s,
    publishes (trace (run evts s)) = [] \/
    (length (publishes (trace (run evts s))) = 1%nat /\
     (outcome (run evts s) = Raise AttributeError \/
      outcome (run evts s) = Raise ValueError)).
Proof.
  intros Hv. induction evts as [|[n e] rest IH]; intros s; [now left|].
  rewrite run_cons. pose proof (step_vipc3 n e s Hv) as A.
  destruct (iteration (handle_evt n e) s) as [[r s1] o1].
  destruct r as [[]| | |]; cbn [outcome final trace fst snd] in *;
    try exact A.
  destruct A as [A | [_ [A | A]]]; try discriminate.
  rewrite publishes_app, A. apply IH.
Qed.

(** *** The display queue of compressed_vipc4.py *)

Lemma publish_frame_forwards n e frame s last :
  which = compressed_vipc4 ->
  last_capture_time s = Some last ->
  let x := publish_frame n e frame s in
  forwards (trace x)
  = (if ge_1s (wall (tick s)) last
     then [(to_ndarray_flat frame, cnt s)] else []) /\
  last_capture_time (final x)
  = Some (if ge_1s (wall (tick s)) last then wall (tick s) else last).
Proof.
  intros Hv Hl. cbn zeta. rewrite publish_frame_vipc4 by exact Hv.
  rewrite Hl.
  destruct (pack W H (to_ndarray_flat frame)), (time_q s);
    unfold forward_trace, forward_state, forwarded, latency_report;
    cbn; destruct (ge_1s (wall (tick s)) last), debug; split; reflexivity.
Qed.

(** *** [encodeId] only shows in the diagnostics *)

Lemma silent_prints o : forallb is_print o = true -> silent o = [].
Proof.
  induction o as [|a o IH]; [reflexivity|].
  cbn. intros E. apply andb_true_iff in E as [Ea Eo].
  rewrite Ea. cbn. now apply IH.
Qed.


Lemma silent_receive_trace s e :
  silent (receive_trace s e)
  = [AMonotonic (monotonic (tick s)); AAppend (monotonic (tick s));
     ATime (wall (S (tick s)))]
    ++ header_trace s e
    ++ [ADecode Data (data (evta e)) (length (frames_of s e))].
Proof.
  unfold receive_trace. rewrite silent_app.
  rewrite (silent_prints _ (gap_report_prints s e)).
  unfold header_trace. now destruct (seen_iframe s).
Qed.

Lemma same_but_encodeId_blank e1 e2 :
  same_but_encodeId e1 e2 -> blank_encodeId e1 = blank_encodeId e2.
Proof.
  intros (A & B & C & D & E & F & G). unfold blank_encodeId.
  now rewrite A, B, C, D, E, F, G.
Qed.

Lemma publish_frame_blind n e e' frame s s' :
  forget_last_idx s = forget_last_idx s' ->
  let x := publish_frame n e frame s in
  let y := publish_frame n e' frame s' in
  outcome x = outcome y /\
  silent (trace x) = silent (trace y) /\
  forget_last_idx (final x) = forget_last_idx (final y).
Proof.
  intros Hs. cbn zeta.
  destruct s as [c k l sn q lc tk], s' as [c' k' l' sn' q' lc' tk'].
  unfold forget_last_idx, set_last_idx in Hs. cbn in Hs.
  injection Hs as -> -> -> -> -> ->.
  destruct which eqn:Hw.
  - rewrite !publish_frame_vipc3 by exact Hw. cbn.
    destruct (pack W H (to_ndarray_flat frame)), q'; cbn;
      repeat split; reflexivity.
  - rewrite !publish_frame_vipc4 by exact Hw. cbn.
    destruct lc'; [|repeat split; reflexivity].
    unfold forward_trace, forward_state, forwarded, latency_report.
    destruct (pack W H (to_ndarray_flat frame)), q'; cbn;
      destruct (ge_1s (wall tk') t), debug; cbn;
      repeat split; reflexivity.
Qed.

Lemma step_blank n e s :
  let x := iteration (handle_evt n e) s in
  let y := iteration (handle_evt n (blank_encodeId e)) (forget_last_idx s) in
  outcome x = outcome y /\
  silent (trace x) = silent (trace y) /\
  forget_last_idx (final x) = forget_last_idx (final y).
Proof.
  cbn zeta. unfold iteration.
  destruct (passes_gate s e) eqn:G.
  - assert (G' : passes_gate (forget_last_idx s) (blank_encodeId e) = true)
      by exact G.
    rewrite (handle_gate_open n e s G), (handle_gate_open n _ _ G').
    change (frames_of (forget_last_idx s) (blank_encodeId e))
      with (frames_of s e).
    destruct (frames_of s e) as [|frame [|frame2 frames]] eqn:F.
    + cbn [outcome final trace fst snd].
      rewrite !silent_app, !silent_receive_trace.
      repeat split.
    + assert (R : forget_last_idx (received s e)
                  = forget_last_idx
                      (received (forget_last_idx s) (blank_encodeId e)))
        by reflexivity.
      pose proof (publish_frame_blind n e (blank_encodeId e) frame _ _ R)
        as (A & B & C).
      cbn zeta in A, B, C.
      destruct (publish_frame n e frame (received s e)) as [[r1 s1] o1].
      destruct (publish_frame n (blank_encodeId e) frame _) as [[r2 s2] o2].
      cbn [outcome final trace fst snd] in *. subst r2.
      assert (T : silent (receive_trace s e ++ o1)
                  = silent (receive_trace (forget_last_idx s)
                              (blank_encodeId e) ++ o2)).
      { rewrite !silent_app, !silent_receive_trace, B. reflexivity. }
      destruct r1; cbn [outcome final trace fst snd];
        (split; [reflexivity | split; assumption]).
    + cbn [outcome final trace fst snd].
      rewrite !silent_receive_trace. repeat split.
  - assert (G' : passes_gate (forget_last_idx s) (blank_encodeId e) = false)
      by exact G.
    rewrite (handle_gate_closed n e s G), (handle_gate_closed n _ _ G').
    cbn [outcome final trace fst snd].
    rewrite !silent_app, !(silent_prints _ (gap_report_prints _ _)).
    repeat split.
Qed.

Lemma step_blind n e1 e2 s1 s2 :
  same_but_encodeId e1 e2 ->
  forget_last_idx s1 = forget_last_idx s2 ->
  let x := iteration (handle_evt n e1) s1 in
  let y := iteration (handle_evt n e2) s2 in
  outcome x = outcome y /\
  silent (trace x) = silent (trace y) /\
  forget_last_idx (final x) = forget_last_idx (final y).
Proof.
  intros He Hs. cbn zeta.
  destruct (step_blank n e1 s1) as (A1 & B1 & C1).
  destruct (step_blank n e2 s2) as (A2 & B2 & C2).
  rewrite (same_but_encodeId_blank _ _ He), Hs in A1, B1, C1.
  split; [|split].
  - exact (eq_trans A1 (eq_sym A2)).
  - exact (eq_trans B1 (eq_sym B2)).
  - exact (eq_trans C1 (eq_sym C2)).
Qed.

Lemma run_blind evts1 evts2 :
  Forall2 (fun a b => fst a = fst b /\ same_but_encodeId (snd a) (snd b))
          evts1 evts2 ->
  forall s1 s2,
    forget_last_idx s1 = forget_last_idx s2 ->
    outcome (run evts1 s1) = outcome (run evts2 s2) /\
    silent (trace (run evts1 s1)) = silent (trace (run evts2 s2)) /\
    forget_last_idx (final (run evts1 s1))
    = forget_last_idx (final (run evts2 s2)).
Proof.
  induction 1 as [|[n1 e1] [n2 e2] l1 l2 [Hn He] Hrest IH]; intros s1 s2 Hs.
  - repeat split. exact Hs.
  - cbn [fst snd] in Hn, He. subst n2. rewrite !run_cons.
    pose proof (step_blind n1 _ _ _ _ He Hs) as (A & B & C). cbn zeta in A, B, C.
    destruct (iteration (handle_evt n1 e1) s1) as [[r1 t1] o1].
    destruct (iteration (handle_evt n1 e2) s2) as [[r2 t2] o2].
    cbn [outcome final trace fst snd] in *. subst r2.
    destruct r1 as [[]| | |]; cbn [outcome final trace fst snd];
      try (split; [reflexivity | split; assumption]).
    destruct (IH t1 t2 C) as (A' & B' & C').
    split; [exact A' | split; [|exact C']].
    now rewrite !silent_app, B, B'.
Qed.

Lemma tagged_same_but batches1 batches2 :
  Forall2 (Forall2 same_but_encodeId) batches1 batches2 ->
  Forall2 (fun a b => fst a = fst b /\ same_but_encodeId (snd a) (snd b))
          (tagged batches1) (tagged batches2).
Proof.
  induction 1 as [|m1 m2 b1 b2 Hm Hb IH]; [constructor|].
  cbn [tagged flat_map]. apply Forall2_app; [|exact IH].
  rewrite (Forall2_length Hm). generalize (length m2) as n.
  induction Hm; intros n; cbn [map]; constructor; auto.
Qed.

Lemma publishes_silent o : publishes (silent o) = publishes o.
Proof.
  unfold silent. induction o as [|a o IH]; [reflexivity|].
  destruct a; cbn; now rewrite ?IH.
Qed.

Lemma run_app_ok evts1 evts2 s :
  outcome (run evts1 s) = Ok tt ->
  run (evts1 ++ evts2) s
  = (outcome (run evts2 (final (run evts1 s))),
     final (run evts2 (final (run evts1 s))),
     trace (run evts1 s) ++ trace (run evts2 (final (run evts1 s)))).
Proof.
  rewrite run_app. unfold bind.
  destruct (run evts1 s) as [[r s1] o1]. cbn [outcome final trace fst snd].
  intros ->. now destruct (run evts2 s1) as [[r2 s2] o2].
Qed.

(** The packets before the first keyframe, with their batch sizes. *)
Lemma split_at_first_keyframe batches k ek :
  nth_error (packets batches) k = Some ek ->
  (forall j e, (j < k)%nat -> nth_error (packets batches) j = Some e ->
               is_keyframe e = false) ->
  exists before n after,
    tagged batches = before ++ (n, ek) :: after /\
    Forall (fun ne => is_keyframe (snd ne) = false) before.
Proof.
  rewrite <- tagged_packets. intros Hk Hbefore.
  rewrite nth_error_map in Hk.
  destruct (nth_error (tagged batches) k) as [[n e]|] eqn:E; [|discriminate].
  injection Hk as ->.
  destruct (nth_error_split _ _ E) as (l1 & l2 & Hsplit & Hlen).
  exists l1, n, l2. split; [exact Hsplit|].
  apply Forall_forall. intros x Hx.
  destruct (In_nth_error _ _ Hx) as [j Hj].
  assert (Hlt : (j < k)%nat).
  { rewrite <- Hlen. apply nth_error_Some. now rewrite Hj. }
  apply (Hbefore j (snd x) Hlt).
  rewrite nth_error_map, Hsplit, nth_error_app1, Hj by lia. reflexivity.
Qed.

(** *** Properties of the worker *)

(** C1. Sync gating: when the first keyframe-flagged packet is at
    position [k], everything the worker does before it receives that
    packet is diagnostics (and the start-up reading of the wall clock):
    nothing is pushed, decoded or published for the positions before
    [k]. The header of that packet is the only header ever submitted,
    it is submitted before any data, and every publish comes after
    both the header and the data of that packet went through the
    decoder. *)
Theorem sync_gating batches k ek :
  nth_error (packets batches) k = Some ek ->
  is_keyframe ek = true ->
  (forall j e, (j < k)%nat -> nth_error (packets batches) j = Some e ->
               is_keyframe e = false) ->
  exists before t w nh nd after,
    trace (decoder batches)
    = before
      ++ [AMonotonic t; AAppend t; ATime w;
          ADecode Header (header (evta ek)) nh;
          ADecode Data (data (evta ek)) nd]
      ++ after
    /\ forallb quiet before = true
    /\ header_decodes after = O
    /\ header_decodes (trace (decoder batches)) = 1%nat
    /\ publishes (trace (decoder batches)) = publishes after.
Proof.
  intros Hk Hkey Hbefore.
  destruct (split_at_first_keyframe batches k ek Hk Hbefore)
    as (l1 & n & l2 & Hsplit & Hl1).
  destruct setup_state_fields as (_ & _ & Hseen & _).
  destruct (run_awaiting l1 setup_state Hseen Hl1) as (Hok & Hquiet & Hfinal).
  rewrite decoder_run, Hsplit, (run_app_ok _ _ _ Hok).
  cbn [outcome final trace fst snd].
  set (s1 := final (run l1 setup_state)) in *.
  assert (Hs1 : seen_iframe s1 = false) by (now rewrite Hfinal).
  destruct (step_first_keyframe n ek s1 Hs1 Hkey)
    as (nh & nd & post & Htrace & Hpost).
  assert (Hk' : passes_gate s1 ek = true)
    by (unfold passes_gate; now rewrite Hkey, orb_true_r).
  pose proof (step_count n ek s1) as (_ & _ & Hstep).
  rewrite run_cons.
  destruct (iteration (handle_evt n ek) s1) as [[r s2] o2].
  cbn [outcome final trace fst snd] in *.
  assert (Hq : forallb quiet
                 (setup_trace ++ trace (run l1 setup_state)
                  ++ gap_report s1 ek) = true).
  { rewrite !forallb_app, setup_trace_quiet.
    rewrite (forallb_quiet_prints _ Hquiet).
    now rewrite (forallb_quiet_prints _ (gap_report_prints s1 ek)). }
  assert (Hgoal : forall tail,
             header_decodes tail = O ->
             exists before t w nh nd after,
               setup_trace ++ trace (run l1 setup_state) ++ o2 ++ tail
               = before
                 ++ [AMonotonic t; AAppend t; ATime w;
                     ADecode Header (header (evta ek)) nh;
                     ADecode Data (data (evta ek)) nd]
                 ++ after
               /\ forallb quiet before = true
               /\ header_decodes after = O
               /\ header_decodes
                    (setup_trace ++ trace (run l1 setup_state) ++ o2 ++ tail)
                  = 1%nat
               /\ publishes
                    (setup_trace ++ trace (run l1 setup_state) ++ o2 ++ tail)
                  = publishes after).
  { intros tail Htail.
    exists (setup_trace ++ trace (run l1 setup_state) ++ gap_report s1 ek).
    exists (monotonic (tick s1)), (wall (S (tick s1))), nh, nd, (post ++ tail).
    assert (E : setup_trace ++ trace (run l1 setup_state) ++ o2 ++ tail
                = (setup_trace ++ trace (run l1 setup_state)
                   ++ gap_report s1 ek)
                  ++ [AMonotonic (monotonic (tick s1));
                      AAppend (monotonic (tick s1));
                      ATime (wall (S (tick s1)));
                      ADecode Header (header (evta ek)) nh;
                      ADecode Data (data (evta ek)) nd]
                  ++ post ++ tail).
    { rewrite Htrace. now rewrite <- !app_assoc. }
    rewrite E. split; [reflexivity|]. split; [exact Hq|].
    split; [now rewrite header_decodes_app, Hpost, Htail|].
    split.
    - rewrite header_decodes_app, (quiet_header_decodes _ Hq).
      cbn. now rewrite header_decodes_app, Hpost, Htail.
    - rewrite publishes_app, (quiet_publishes _ Hq). reflexivity. }
  destruct r as [[]| | |]; cbn [outcome final trace fst snd].
  - destruct (Hstep eq_refl) as (Hs2 & _). rewrite Hk' in Hs2.
    apply Hgoal. now apply run_synced.
  - specialize (Hgoal [] eq_refl). now rewrite !app_nil_r in Hgoal.
  - specialize (Hgoal [] eq_refl). now rewrite !app_nil_r in Hgoal.
  - specialize (Hgoal [] eq_refl). now rewrite !app_nil_r in Hgoal.
Qed.

(** C2 (amended). Dense publish index: the frame indices passed to
    [vipc_server.send] are 0, 1, 2, ... in order, without gap or repeat,
    whatever the [encodeId]s were; and when the worker has survived all
    the packets delivered so far (no decode returned more than one
    frame, no exception), every accepted packet was decoded once and
    the number of publishes is the number of accepted packets minus
    the number of those for which the decoder returned no frame. *)
Theorem dense_publish_index batches :
  let x := decoder batches in
  let published := length (publishes (trace x)) in
  map pub_cnt (publishes (trace x)) = map Z.of_nat (seq 0 published) /\
  (outcome x = Ok tt ->
   data_decodes (trace x) = length (accepted (packets batches)) /\
   published
   = (length (accepted (packets batches)) - dropped_surfaces (trace x))%nat /\
   (dropped_surfaces (trace x) <= length (accepted (packets batches)))%nat /\
   cnt (final x) = Z.of_nat published).
Proof.
  cbn zeta. rewrite decoder_run. cbn [outcome final trace fst snd].
  destruct setup_state_fields as (Hcnt & _ & Hseen & _).
  pose proof (run_count (tagged batches) setup_state) as (A & B & C).
  cbn zeta in A, B, C. rewrite Hcnt in A, B.
  rewrite tagged_packets in C. unfold accepted_from in C. rewrite Hseen in C.
  rewrite publishes_app, setup_trace_publishes. cbn [app].
  split.
  - rewrite A. apply map_ext. intros i. lia.
  - intros Hok. destruct (C Hok) as (C1 & C2).
    assert (Hq : forallb quiet setup_trace = true) by apply setup_trace_quiet.
    assert (D1 : data_decodes setup_trace = O).
    { unfold setup_trace. now destruct debug, which. }
    assert (D2 : dropped_surfaces setup_trace = O).
    { unfold setup_trace. now destruct debug, which. }
    rewrite data_decodes_app, dropped_surfaces_app, D1, D2. cbn [Nat.add].
    repeat split; try lia.
Qed.

(** C3. First in, first out: the capture time passed with the i-th
    publish is the i-th receipt timestamp pushed on [time_q]
    (converted to nanoseconds), whatever decodes failed in between;
    and every publish passes, as publish time, the reading of the
    monotonic clock taken for that call. *)
Theorem timestamp_fifo_pairing batches :
  let o := trace (decoder batches) in
  (forall i p,
      nth_error (publishes o) i = Some p ->
      exists t, nth_error (receipts o) i = Some t /\ pub_capture p = ns t)
  /\ stamped o.
Proof.
  cbn zeta. rewrite decoder_run. cbn [trace snd].
  destruct setup_state_fields as (_ & Hq & _ & _).
  pose proof (run_fifo (tagged batches) setup_state) as A.
  rewrite Hq in A. cbn [app] in A.
  rewrite publishes_app, receipts_app.
  rewrite setup_trace_publishes, setup_trace_receipts. cbn [app].
  split.
  - intros i p Hp.
    assert (Hi : (i < length (publishes
                                (trace (run (tagged batches) setup_state))))%nat)
      by (apply nth_error_Some; now rewrite Hp).
    apply (f_equal (fun l => nth_error l i)) in A.
    rewrite !nth_error_map, Hp, nth_error_firstn in A.
    apply Nat.ltb_lt in Hi. rewrite Hi in A. cbn in A.
    destruct (nth_error (receipts _) i) as [t|]; [|discriminate].
    exists t. split; [reflexivity|]. now injection A.
  - apply stamped_app; [apply setup_trace_stamped | apply run_stamped].
Qed.

(** C4. A dropped surface: when the decoder returns no frame for an
    accepted packet, the iteration ends with [continue]: nothing is
    published, [time_q] is not popped, [cnt] keeps its value, the
    receipt timestamp pushed for the packet stays at the back of
    [time_q], and the loop goes on with the next packet. *)
Theorem dropped_surface_is_skipped n e s :
  passes_gate s e = true ->
  frames_of s e = [] ->
  let x := handle_evt n e s in
  outcome x = Continue /\
  publishes (trace x) = [] /\
  ~ In APop (trace x) /\
  cnt (final x) = cnt s /\
  receipts (trace x) = [monotonic (tick s)] /\
  time_q (final x) = time_q s ++ [monotonic (tick s)] /\
  forall rest,
    for_evts n (e :: rest) s
    = (outcome (for_evts n rest (final x)),
       final (for_evts n rest (final x)),
       trace x ++ trace (for_evts n rest (final x))).
Proof.
  intros G F. cbn zeta. cbn [for_evts]. unfold bind, iteration.
  rewrite (handle_gate_open n e s G), F.
  cbn [outcome final trace fst snd].
  unfold receive_trace, header_trace, gap_report.
  split; [reflexivity|].
  split; [destruct (debug && gap (last_idx s) e), (seen_iframe s), debug;
          reflexivity|].
  split.
  { destruct (debug && gap (last_idx s) e), (seen_iframe s), debug; cbn;
      intuition discriminate. }
  split; [reflexivity|].
  split; [destruct (debug && gap (last_idx s) e), (seen_iframe s), debug;
          reflexivity|].
  split; [reflexivity|].
  intros rest. now destruct (for_evts n rest (received s e)) as [[r s1] o1].
Qed.

(** C5. More than one frame: the [assert] fails, nothing is published
    for the packet and neither loop goes on; the assertion fails in no
    other case, and a decode that returns no frame only ends the
    iteration. *)
Theorem extra_frames_abort n e s :
  passes_gate s e = true ->
  let x := handle_evt n e s in
  (outcome x = Raise AssertionError <-> (2 <= length (frames_of s e))%nat) /\
  (outcome x = Continue <-> frames_of s e = []) /\
  ((2 <= length (frames_of s e))%nat ->
   publishes (trace x) = [] /\
   cnt (final x) = cnt s /\
   forall rest more,
     for_evts n (e :: rest) s = (Raise AssertionError, final x, trace x) /\
     (for_evts n (e :: rest) ;; while_1 more) s
     = (Raise AssertionError, final x, trace x)).
Proof.
  intros G. cbn zeta. cbn [for_evts]. unfold bind, iteration.
  pose proof (step_no_index_error n e s) as NI. unfold iteration in NI.
  rewrite (handle_gate_open n e s G) in *.
  destruct (frames_of s e) as [|frame [|frame2 frames]] eqn:F;
    cbn [outcome final trace fst snd length] in *.
  - split; [split; [discriminate | lia]|].
    split; [split; reflexivity|]. lia.
  - split.
    + split; [|lia]. intros E. exfalso.
      destruct which eqn:Hw.
      * rewrite publish_frame_vipc3 in E by exact Hw.
        destruct (pack W H (to_ndarray_flat frame)), (time_q (received s e));
          cbn in E; try discriminate.
        match type of E with
        | context [if ?c then _ else _] => destruct c; discriminate
        end.
      * rewrite publish_frame_vipc4 in E by exact Hw.
        destruct (last_capture_time (received s e)),
          (pack W H (to_ndarray_flat frame)), (time_q (received s e));
          cbn in E; discriminate.
    + split; [|lia].
      split; [|discriminate]. intros E. exfalso.
      destruct which eqn:Hw.
      * rewrite publish_frame_vipc3 in E by exact Hw.
        destruct (pack W H (to_ndarray_flat frame)), (time_q (received s e));
          cbn in E; discriminate.
      * rewrite publish_frame_vipc4 in E by exact Hw.
        destruct (last_capture_time (received s e)),
          (pack W H (to_ndarray_flat frame)), (time_q (received s e));
          cbn in E; discriminate.
  - split; [split; [lia | reflexivity]|].
    split; [split; discriminate|].
    intros _. unfold receive_trace, header_trace, gap_report.
    split; [destruct (debug && gap (last_idx s) e), (seen_iframe s);
            reflexivity|].
    repeat split.
Qed.

(** C7. Gap detection does not block: two packet streams that differ
    at most in their [encodeId]s make the worker end the same way and
    do the same things, publishes included (payload, frame index,
    capture and publish time); only the printed diagnostics may
    differ. *)
Theorem encode_id_is_diagnostic_only batches1 batches2 :
  Forall2 (Forall2 same_but_encodeId) batches1 batches2 ->
  publishes (trace (decoder batches1)) = publishes (trace (decoder batches2)) /\
  silent (trace (decoder batches1)) = silent (trace (decoder batches2)) /\
  outcome (decoder batches1) = outcome (decoder batches2).
Proof.
  intros Hb. rewrite !decoder_run. cbn [outcome final trace fst snd].
  destruct (run_blind _ _ (tagged_same_but _ _ Hb) setup_state setup_state
              eq_refl) as (A & B & C).
  assert (S : silent (setup_trace ++ trace (run (tagged batches1) setup_state))
              = silent (setup_trace
                        ++ trace (run (tagged batches2) setup_state)))
    by (now rewrite !silent_app, B).
  split; [|split; [exact S | exact A]].
  now rewrite <- publishes_silent, S, publishes_silent.
Qed.

(** C8. [time_q] is never read empty: no run ends in the [IndexError]
    that [time_q[0]] would raise. In every iteration, from any state,
    a publish is preceded by the push of that packet's receipt
    timestamp, so the front it reads exists; [time_q] is popped only
    right after a publish, and it shrinks only in an iteration that
    published and ended normally. *)
Theorem time_q_never_read_empty :
  (forall batches, outcome (decoder batches) <> Raise IndexError) /\
  (forall n e s,
      let x := handle_evt n e s in
      outcome x <> Raise IndexError /\
      (forall p,
          In p (publishes (trace x)) ->
          receipts (trace x) = [monotonic (tick s)] /\
          exists front rest,
            time_q s ++ [monotonic (tick s)] = front :: rest /\
            pub_capture p = ns front) /\
      pops_follow_publish (trace x) = true /\
      (time_q (final x) = time_q s \/
       time_q (final x) = time_q s ++ [monotonic (tick s)] \/
       (outcome x = Ok tt /\
        length (publishes (trace x)) = 1%nat /\
        time_q (final x) = tl (time_q s ++ [monotonic (tick s)])))).
Proof.
  split.
  - intros batches. rewrite decoder_run. apply run_no_index_error.
  - intros n e s. cbn zeta.
    step_exec n e s.
    all: split; [discriminate|].
    all: split; [intros p Hp; cbn in Hp; try contradiction;
                 destruct Hp as [<-|[]];
                 (split; [reflexivity|]); eauto|].
    all: split; [reflexivity|]; auto.
Qed.

(** No frame reaches the display of compressed_vipc3.py: the worker
    publishes at most one frame and ends with the exception raised on
    the way to [cv2.imshow]. *)
Lemma vipc3_stops_at_first_publish batches :
  which = compressed_vipc3 ->
  publishes (trace (decoder batches)) = [] \/
  (length (publishes (trace (decoder batches))) = 1%nat /\
   (outcome (decoder batches) = Raise AttributeError \/
    outcome (decoder batches) = Raise ValueError)).
Proof.
  intros Hv. rewrite decoder_run. cbn [outcome final trace fst snd].
  rewrite publishes_app, setup_trace_publishes. apply (run_vipc3 _ Hv).
Qed.

(** C10. Every received packet sets [last_idx] to its [encodeId], also
    a packet that does not pass the keyframe gate, for which this is
    the only change of state. After a run of discarded packets the
    gap check of the first keyframe therefore compares with the
    [encodeId] of the last discarded packet, not with the initial -1. *)
Theorem last_idx_follows_every_packet batches discarded e_last n e :
  packets batches = discarded ++ [e_last] ->
  Forall (fun p => is_keyframe p = false) (packets batches) ->
  is_keyframe e = true ->
  let s := final (decoder batches) in
  (forall n' e' s',
      last_idx (final (handle_evt n' e' s')) = encodeId (idx (evta e')) /\
      (passes_gate s' e' = false ->
       final (handle_evt n' e' s') = set_last_idx (encodeId (idx (evta e'))) s'))
  /\ outcome (decoder batches) = Ok tt
  /\ seen_iframe s = false
  /\ last_idx s = encodeId (idx (evta e_last))
  /\ exists rest,
       trace (handle_evt n e s)
       = (if debug && gap (encodeId (idx (evta e_last))) e
          then [APrint LDropPacket] else [])
         ++ AMonotonic (monotonic (tick s)) :: rest.
Proof.
  intros Hp Hall Hkey. cbn zeta.
  split.
  { intros n' e' s'. split.
    - step_exec n' e' s'; reflexivity.
    - intros G. now rewrite (handle_gate_closed n' e' s' G). }
  rewrite decoder_run. cbn [outcome final trace fst snd].
  destruct setup_state_fields as (_ & _ & Hseen & _).
  assert (Hall' : Forall (fun ne => is_keyframe (snd ne) = false)
                         (tagged batches)).
  { rewrite <- tagged_packets in Hall. now apply Forall_map in Hall. }
  destruct (run_awaiting (tagged batches) setup_state Hseen Hall')
    as (Hok & _ & Hfinal).
  assert (Hlast : last (map (fun ne => encodeId (idx (evta (snd ne))))
                            (tagged batches)) (last_idx setup_state)
                  = encodeId (idx (evta e_last))).
  { rewrite <- (map_map snd (fun p => encodeId (idx (evta p)))).
    rewrite tagged_packets, Hp, map_app. cbn [map]. apply last_last. }
  rewrite Hlast in Hfinal.
  set (s := final (run (tagged batches) setup_state)) in *.
  assert (Hs : seen_iframe s = false) by (now rewrite Hfinal).
  assert (Hl : last_idx s = encodeId (idx (evta e_last)))
    by (now rewrite Hfinal).
  split; [exact Hok|]. split; [exact Hs|]. split; [exact Hl|].
  assert (G : passes_gate s e = true)
    by (unfold passes_gate; now rewrite Hkey, orb_true_r).
  rewrite (handle_gate_open n e s G).
  unfold receive_trace, gap_report. rewrite Hl.
  destruct (frames_of s e) as [|frame [|frame2 frames]];
    cbn [outcome final trace fst snd]; rewrite <- ?app_assoc;
    eexists; reflexivity.
Qed.

(** *** The bus layout *)

Lemma reshape_2_app {A} (u v : list A) :
  length u = length v -> reshape_2 (u ++ v) = Some (u, v).
Proof.
  intros E. unfold reshape_2. rewrite length_app, <- E.
  replace (length u + length u)%nat with (2 * length u)%nat by lia.
  rewrite Nat.even_mul. cbn [Nat.even orb].
  rewrite Nat.mul_comm, Nat.div_mul by discriminate.
  rewrite firstn_app, Nat.sub_diag, firstn_all, firstn_O, app_nil_r.
  rewrite skipn_app, Nat.sub_diag, skipn_all, skipn_O.
  reflexivity.
Qed.

Lemma ravel_F_length {A} (u v : list A) :
  length u = length v -> length (ravel_F u v) = (length u + length v)%nat.
Proof.
  revert v. induction u as [|a u IH]; intros [|b v] E; try discriminate.
  - reflexivity.
  - cbn in *. rewrite IH by lia. lia.
Qed.

Lemma step2_ravel_F {A} (u v : list A) :
  length u = length v -> step2 (ravel_F u v) = u.
Proof.
  revert v. induction u as [|a u IH]; intros [|b v] E; try discriminate.
  - reflexivity.
  - cbn in *. f_equal. apply IH. lia.
Qed.

Lemma step2_tl_ravel_F {A} (u v : list A) :
  length u = length v -> step2 (tl (ravel_F u v)) = v.
Proof.
  revert v. induction u as [|a u IH]; intros [|b v] E; try discriminate.
  - reflexivity.
  - cbn [ravel_F tl]. injection E as E.
    destruct u as [|a' u'], v as [|b' v']; try discriminate.
    + reflexivity.
    + specialize (IH (b' :: v') E).
      cbn [ravel_F tl] in IH. cbn [ravel_F].
      change (step2 (b :: a' :: b' :: ravel_F u' v'))
        with (b :: step2 (b' :: ravel_F u' v')).
      now rewrite IH.
Qed.

Lemma nth_error_ravel_F {A} (u v : list A) i :
  length u = length v ->
  nth_error (ravel_F u v) (2 * i) = nth_error u i /\
  nth_error (ravel_F u v) (2 * i + 1) = nth_error v i.
Proof.
  revert u v. induction i as [|i IH]; intros [|a u] [|b v] E;
    try discriminate; try (split; reflexivity).
  replace (2 * S i)%nat with (S (S (2 * i))) by lia.
  cbn [ravel_F nth_error Nat.add]. apply IH. now injection E.
Qed.

Lemma pack_planes W' H' frame :
  wf_frame W' H' frame ->
  pack W' H' (to_ndarray_flat frame)
  = Some (plane_y frame ++ ravel_F (plane_u frame) (plane_v frame)).
Proof.
  intros (Hy & Hu & Hv). unfold pack, to_ndarray_flat.
  rewrite skipn_app, <- Hy, Nat.sub_diag, skipn_all, skipn_O. cbn [app].
  rewrite reshape_2_app by congruence.
  now rewrite firstn_app, Nat.sub_diag, firstn_all, firstn_O, app_nil_r.
Qed.


(** *** compressed_vipc4.py keeps running *)

Lemma step_vipc4_survives n e s :
  which = compressed_vipc4 ->
  decoder_contract ->
  last_capture_time s <> None ->
  outcome (iteration (handle_evt n e) s) = Ok tt /\
  last_capture_time (final (iteration (handle_evt n e) s)) <> None.
Proof.
  intros Hv Hc Hl.
  pose proof (Hc (codec_for_data s e) (data (evta e))) as Hf.
  fold (frames_of s e) in Hf.
  unfold iteration. destruct (passes_gate s e) eqn:G.
  - rewrite (handle_gate_open n e s G).
    destruct (frames_of s e) as [|frame [|frame2 frames]];
      [split; [reflexivity | exact Hl] | | contradiction].
    rewrite publish_frame_vipc4 by exact Hv.
    cbn [received last_capture_time time_q].
    destruct (last_capture_time s) as [last|]; [|contradiction].
    rewrite (pack_planes _ _ _ Hf).
    destruct (time_q s ++ [monotonic (tick s)]) eqn:Q;
      [destruct (time_q s); discriminate|].
    cbn. split; [reflexivity | discriminate].
  - rewrite (handle_gate_closed n e s G). split; [reflexivity | exact Hl].
Qed.

Lemma run_vipc4_survives evts :
  which = compressed_vipc4 ->
  decoder_contract ->
  forall s, last_capture_time s <> None -> outcome (run evts s) = Ok tt.
Proof.
  intros Hv Hc. induction evts as [|[n e] rest IH]; intros s Hl;
    [reflexivity|].
  rewrite run_cons. destruct (step_vipc4_survives n e s Hv Hc Hl) as [A B].
  destruct (iteration (handle_evt n e) s) as [[r s1] o1].
  cbn [outcome final trace fst snd] in *. subst r.
  cbn [outcome fst]. now apply IH.
Qed.


(** *** compressed_vipc4.py forwards at most one frame a second *)

Lemma forward_times_app o1 o2 :
  starts_with_put o2 = false ->
  forward_times (o1 ++ o2) = forward_times o1 ++ forward_times o2.
Proof.
  intros Hput. induction o1 as [|a o1 IH]; [reflexivity|].
  destruct a; cbn [app forward_times]; rewrite ?IH; try reflexivity.
  destruct o1 as [|b o1].
  - cbn [app]. destruct o2 as [|c o2]; [reflexivity|].
    now destruct c.
  - cbn [app]. now destruct b.
Qed.

Lemma spaced_app last ts1 ts2 :
  spaced last (ts1 ++ ts2)
  = spaced last ts1 && spaced (List.last ts1 last) ts2.
Proof.
  revert last. induction ts1 as [|t ts1 IH]; intros last; [reflexivity|].
  cbn [app spaced]. rewrite IH, andb_assoc. f_equal. f_equal.
  destruct ts1 as [|t0 ts1]; [reflexivity|].
  change (List.last (t :: t0 :: ts1) last) with (List.last (t0 :: ts1) last).
  apply last_cons_default.
Qed.

Lemma starts_with_put_app o1 o2 :
  starts_with_put o1 = false ->
  starts_with_put o2 = false ->
  starts_with_put (o1 ++ o2) = false.
Proof. intros H1 H2. destruct o1 as [|a o1]; [exact H2 | exact H1]. Qed.

Lemma step_forwards_spaced n e s last :
  which = compressed_vipc4 ->
  last_capture_time s = Some last ->
  let x := iteration (handle_evt n e) s in
  starts_with_put (trace x) = false /\
  spaced last (forward_times (trace x)) = true /\
  last_capture_time (final x)
  = Some (List.last (forward_times (trace x)) last).
Proof.
  intros Hv Hl. cbn zeta. unfold iteration.
  destruct (passes_gate s e) eqn:G.
  - rewrite (handle_gate_open n e s G).
    destruct (frames_of s e) as [|frame [|frame2 frames]];
      [| rewrite publish_frame_vipc4 by exact Hv;
         cbn [received last_capture_time time_q]; rewrite Hl;
         destruct (pack W H (to_ndarray_flat frame));
         destruct (time_q s ++ [monotonic (tick s)]) |];
      unfold receive_trace, header_trace, gap_report, forward_trace,
        forward_state, forwarded, latency_report;
      cbn [outcome final trace fst snd received last_capture_time tick];
      split_ifs; cbn; rewrite ?Hl;
      repeat split; try reflexivity; try assumption;
      rewrite ?andb_true_r; assumption.
  - rewrite (handle_gate_closed n e s G). unfold gap_report.
    split_ifs; cbn; rewrite ?Hl; repeat split.
Qed.

Lemma run_forwards_spaced evts :
  which = compressed_vipc4 ->
  forall s last,
    last_capture_time s = Some last ->
    starts_with_put (trace (run evts s)) = false /\
    spaced last (forward_times (trace (run evts s))) = true.
Proof.
  intros Hv. induction evts as [|[n e] rest IH]; intros s last Hl;
    [split; reflexivity|].
  rewrite run_cons.
  destruct (step_forwards_spaced n e s last Hv Hl) as (A & B & C).
  destruct (iteration (handle_evt n e) s) as [[r s1] o1].
  cbn [outcome final trace fst snd] in *.
  destruct r as [[]| | |]; cbn [outcome final trace fst snd];
    try (split; assumption).
  destruct (IH s1 _ C) as (A' & B').
  split; [now apply starts_with_put_app|].
  now rewrite forward_times_app, spaced_app, B, B' by exact A'.
Qed.

(** X19. In compressed_vipc4.py two frames put on the display queue are
    at least a second of wall clock apart, and the first one is at least
    a second after the start of the worker. *)
Lemma vipc4_forwards_spaced batches :
  which = compressed_vipc4 ->
  spaced (wall 0) (forward_times (trace (decoder batches))) = true.
Proof.
  intros Hv. rewrite decoder_run. cbn [trace snd].
  assert (Hl : last_capture_time setup_state = Some (wall 0))
    by (unfold setup_state; now rewrite Hv).
  destruct (run_forwards_spaced (tagged batches) Hv setup_state _ Hl)
    as (A & B).
  rewrite forward_times_app by exact A.
  assert (E : forward_times setup_trace = [])
    by (unfold setup_trace; rewrite Hv; now destruct debug).
  now rewrite E.
Qed.

(** ** Further properties of the worker *)

(** *** What waits in [time_q] *)

Lemma skipn_app_skipn {A} (a b : nat) (l r : list A) :
  (a <= length l)%nat ->
  skipn (a + b) (l ++ r) = skipn b (skipn a l ++ r).
Proof.
  intros Ha. rewrite Nat.add_comm, <- skipn_skipn, skipn_app.
  replace (a - length l)%nat with O by lia. reflexivity.
Qed.

Lemma step_backlog n e s :
  let x := iteration (handle_evt n e) s in
  outcome x = Ok tt ->
  time_q (final x)
  = skipn (length (publishes (trace x))) (time_q s ++ receipts (trace x)) /\
  length (receipts (trace x)) = (if passes_gate s e then 1 else 0)%nat /\
  (length (publishes (trace x)) <= length (time_q s ++ receipts (trace x)))%nat.
Proof.
  step_exec n e s; intros Hok; try discriminate.
  all: rewrite ?app_nil_r; repeat split; cbn; try lia.
  all: rewrite ?length_app; cbn; lia.
Qed.

Lemma run_backlog evts :
  forall s,
    outcome (run evts s) = Ok tt ->
    time_q (final (run evts s))
    = skipn (length (publishes (trace (run evts s))))
            (time_q s ++ receipts (trace (run evts s))) /\
    length (receipts (trace (run evts s)))
    = length (accepted_from s (map snd evts)) /\
    (length (publishes (trace (run evts s)))
     <= length (time_q s ++ receipts (trace (run evts s))))%nat.
Proof.
  induction evts as [|[n e] rest IH]; intros s.
  - intros _. cbn. rewrite app_nil_r. repeat split; try lia.
    unfold accepted_from. now destruct (seen_iframe s).
  - rewrite run_cons. cbn [map snd].
    pose proof (step_backlog n e s) as A.
    pose proof (accepted_from_step n e s (map snd rest)) as D.
    cbn zeta in A.
    destruct (iteration (handle_evt n e) s) as [[r s1] o1].
    destruct r as [[]| | |]; cbn [outcome final trace fst snd] in *;
      try discriminate.
    intros Hok. destruct (A eq_refl) as (A1 & A2 & A3).
    destruct (IH s1 Hok) as (B1 & B2 & B3).
    rewrite publishes_app, receipts_app, !length_app in *.
    split; [|split].
    + rewrite B1, A1, app_assoc. symmetry. apply skipn_app_skipn.
      rewrite length_app. lia.
    + rewrite A2, B2, (D eq_refl). reflexivity.
    + rewrite A1, length_skipn, ?length_app in B3. rewrite ?length_app in A3. lia.
Qed.

(** X1. When the worker has gone through the packets delivered so far,
    [time_q] holds the receipt timestamps that no publish has consumed
    yet, oldest first: one entry for every packet the decoder returned
    no frame for. The queue never shrinks back: each dropped surface
    makes every later publish pair with a timestamp one packet older. *)
Theorem time_q_backlog batches :
  outcome (decoder batches) = Ok tt ->
  let x := decoder batches in
  time_q (final x)
  = skipn (length (publishes (trace x))) (receipts (trace x)) /\
  length (time_q (final x)) = dropped_surfaces (trace x) /\
  length (receipts (trace x)) = length (accepted (packets batches)).
Proof.
  cbn zeta. rewrite decoder_run. cbn [outcome final trace fst snd].
  intros Hok.
  destruct setup_state_fields as (_ & Hq & Hseen & _).
  destruct (run_backlog (tagged batches) setup_state Hok) as (A & B & C).
  pose proof (run_count (tagged batches) setup_state) as (_ & _ & D).
  cbn zeta in D. destruct (D Hok) as (_ & D2).
  rewrite Hq in A, C. cbn [app] in A, C.
  rewrite tagged_packets in B, D2. unfold accepted_from in B, D2.
  rewrite Hseen in B, D2.
  rewrite publishes_app, receipts_app, dropped_surfaces_app.
  rewrite setup_trace_publishes, setup_trace_receipts. cbn [app].
  assert (E : dropped_surfaces setup_trace = O)
    by (unfold setup_trace; now destruct debug, which).
  rewrite E. cbn [Nat.add].
  split; [exact A|]. split; [|exact B].
  rewrite A, length_skipn. lia.
Qed.

(** *** What the decoder is fed *)

Lemma decode_calls_app o1 o2 :
  decode_calls (o1 ++ o2) = decode_calls o1 ++ decode_calls o2.
Proof.
  induction o1 as [|a o1 IH]; [reflexivity|].
  destruct a; cbn; now rewrite ?IH.
Qed.

Lemma step_feed n e s :
  decode_calls (trace (iteration (handle_evt n e) s))
  = if passes_gate s e
    then (if seen_iframe s then [] else [(Header, header (evta e))])
         ++ [(Data, data (evta e))]
    else [].
Proof.
  step_exec n e s; try reflexivity; try congruence.
Qed.

Lemma feed_step n e s rest :
  outcome (iteration (handle_evt n e) s) = Ok tt ->
  feed s (e :: rest)
  = decode_calls (trace (iteration (handle_evt n e) s))
    ++ feed (final (iteration (handle_evt n e) s)) rest.
Proof.
  intros Hok. rewrite step_feed.
  pose proof (step_count n e s) as (_ & _ & C).
  destruct (C Hok) as (Hseen & _).
  unfold feed, accepted_from. rewrite Hseen. unfold passes_gate.
  destruct (seen_iframe s); cbn [orb].
  - destruct rest; reflexivity.
  - destruct (is_keyframe e) eqn:K; cbn [accepted]; rewrite ?K.
    + destruct rest; reflexivity.
    + reflexivity.
Qed.

Lemma feed_stopped n e s rest :
  exists tail,
    feed s (e :: rest)
    = decode_calls (trace (iteration (handle_evt n e) s)) ++ tail.
Proof.
  rewrite step_feed. unfold feed, accepted_from, passes_gate.
  destruct (seen_iframe s); cbn [orb].
  - eexists. cbn [app map]. reflexivity.
  - destruct (is_keyframe e) eqn:K; cbn [accepted]; rewrite ?K.
    + eexists. cbn [app map]. reflexivity.
    + eexists. reflexivity.
Qed.

Lemma run_feed evts :
  forall s,
    exists tail,
      feed s (map snd evts) = decode_calls (trace (run evts s)) ++ tail /\
      (outcome (run evts s) = Ok tt -> tail = []).
Proof.
  induction evts as [|[n e] rest IH]; intros s.
  - exists []. split; [|reflexivity]. cbn [map run trace snd ret].
    unfold feed, accepted_from. now destruct (seen_iframe s).
  - rewrite run_cons. cbn [map snd].
    pose proof (feed_step n e s (map snd rest)) as A.
    destruct (feed_stopped n e s (map snd rest)) as (tail0 & B).
    destruct (iteration (handle_evt n e) s) as [[r s1] o1].
    destruct r as [[]| | |]; cbn [outcome final trace fst snd] in *;
      try (exists tail0; split; [exact B | discriminate]).
    destruct (IH s1) as (tail & C & D).
    exists tail. split; [|exact D].
    now rewrite (A eq_refl), C, decode_calls_app, app_assoc.
Qed.

(** X2. The decoder is fed the stream as it arrived: the header of the
    first keyframe packet, then the data of that packet and of every
    later packet, in arrival order, each once; nothing of a packet from
    before the first keyframe, and no header of a later keyframe. A
    worker that stopped has fed a prefix of that. *)
Theorem decoder_feed batches :
  exists tail,
    match accepted (packets batches) with
    | [] => []
    | first :: rest =>
        (Header, header (evta first))
        :: map (fun e => (Data, data (evta e))) (first :: rest)
    end
    = decode_calls (trace (decoder batches)) ++ tail /\
    (outcome (decoder batches) = Ok tt -> tail = []).
Proof.
  rewrite decoder_run. cbn [outcome final trace fst snd].
  destruct setup_state_fields as (_ & _ & Hseen & _).
  destruct (run_feed (tagged batches) setup_state) as (tail & A & B).
  rewrite tagged_packets in A. unfold feed, accepted_from in A.
  rewrite Hseen in A.
  exists tail. split; [|exact B].
  rewrite decode_calls_app.
  assert (E : decode_calls setup_trace = [])
    by (unfold setup_trace; now destruct debug, which).
  rewrite E. exact A.
Qed.

(** *** What is published and what is forwarded *)

(** X3. Whatever an iteration publishes is the frame decoded from the
    packet of that iteration, repacked, under the current value of
    [cnt]: no frame of an earlier packet is ever sent again and none is
    sent for a packet that did not pass the keyframe gate. *)
Theorem publish_is_this_packet n e s p :
  In p (publishes (trace (handle_evt n e s))) ->
  passes_gate s e = true /\
  pub_cnt p = cnt s /\
  exists frame,
    frames_of s e = [frame] /\
    pack W H (to_ndarray_flat frame) = Some (pub_img p).
Proof.
  step_exec n e s; intros Hp; try contradiction.
  all: destruct Hp as [<-|[]]; cbn.
  all: split; [reflexivity|]; split; [reflexivity|].
  all: eexists; split; [reflexivity|]; assumption.
Qed.

(** X4. compressed_vipc4.py: a frame put on the display queue is the
    planar frame decoded from the packet of that iteration, labelled
    with the index it is about to be published under. It is put before
    it is repacked: when repacking raises, the frame has been forwarded
    and is never published; otherwise it is published in the same
    iteration under that index. *)
Theorem forwarded_frame_label n e s img c :
  which = compressed_vipc4 ->
  In (img, c) (forwards (trace (handle_evt n e s))) ->
  c = cnt s /\
  (exists frame, frames_of s e = [frame] /\ img = to_ndarray_flat frame) /\
  match pack W H img with
  | None =>
      outcome (handle_evt n e s) = Raise ValueError /\
      publishes (trace (handle_evt n e s)) = []
  | Some packed =>
      outcome (handle_evt n e s) = Ok tt /\
      exists capture published,
        publishes (trace (handle_evt n e s))
        = [{| pub_img := packed; pub_cnt := c;
              pub_capture := capture; pub_time := published |}]
  end.
Proof.
  intros Hv.
  step_exec n e s; intros Hp; try contradiction; try discriminate.
  all: destruct Hp as [Hp|[]]; injection Hp as <- <-.
  all: split; [reflexivity|]; split; [eexists; split; reflexivity|].
  all: match goal with P : pack W H _ = _ |- _ => rewrite P end.
  all: split; [reflexivity|]; try reflexivity; eauto.
Qed.

(** *** The display path of compressed_vipc3.py *)

Lemma step_vipc3_no_display n e s :
  which = compressed_vipc3 ->
  existsb display_action (trace (iteration (handle_evt n e) s)) = false.
Proof.
  intros Hv. step_exec n e s; try discriminate; reflexivity.
Qed.

Lemma run_vipc3_no_display evts :
  which = compressed_vipc3 ->
  forall s, existsb display_action (trace (run evts s)) = false.
Proof.
  intros Hv. induction evts as [|[n e] rest IH]; intros s; [reflexivity|].
  rewrite run_cons. pose proof (step_vipc3_no_display n e s Hv) as A.
  destruct (iteration (handle_evt n e) s) as [[r s1] o1].
  destruct r as [[]| | |]; cbn [outcome final trace fst snd] in *;
    try exact A.
  now rewrite existsb_app, A, IH.
Qed.

(** X5. The display path of compressed_vipc3.py is dead: in no run is a
    frame shown, the keyboard read, [time_q] popped or the worker put
    to sleep. A run publishes at most one frame, and a run that has
    published has ended with the exception raised on the way to
    [cv2.imshow]. *)
Theorem vipc3_display_path_is_dead batches :
  which = compressed_vipc3 ->
  existsb display_action (trace (decoder batches)) = false /\
  (length (publishes (trace (decoder batches))) <= 1)%nat /\
  (publishes (trace (decoder batches)) <> [] ->
   outcome (decoder batches) = Raise AttributeError \/
   outcome (decoder batches) = Raise ValueError).
Proof.
  intros Hv. rewrite decoder_run. cbn [outcome final trace fst snd].
  rewrite existsb_app, publishes_app, setup_trace_publishes. cbn [app].
  split.
  - rewrite (run_vipc3_no_display _ Hv).
    unfold setup_trace. now destruct debug, which.
  - destruct (run_vipc3 (tagged batches) Hv setup_state) as [A | [A B]].
    + rewrite A. split; [cbn; lia | congruence].
    + rewrite A. split; [lia | intros _; exact B].
Qed.

(** *** Diagnostics *)

Lemma step_no_print n e s :
  debug = false ->
  existsb is_print (trace (iteration (handle_evt n e) s)) = false.
Proof.
  intros Hd. step_exec n e s; try discriminate.
  all: rewrite ?Hd in *; cbn in *; try discriminate; reflexivity.
Qed.

Lemma run_no_print evts :
  debug = false ->
  forall s, existsb is_print (trace (run evts s)) = false.
Proof.
  intros Hd. induction evts as [|[n e] rest IH]; intros s; [reflexivity|].
  rewrite run_cons. pose proof (step_no_print n e s Hd) as A.
  destruct (iteration (handle_evt n e) s) as [[r s1] o1].
  destruct r as [[]| | |]; cbn [outcome final trace fst snd] in *;
    try exact A.
  now rewrite existsb_app, A, IH.
Qed.

(** X6. Without [debug] the worker prints nothing, whatever happens to
    the packets: dropped packets, dropped surfaces and the wait for a
    keyframe all pass in silence. *)
Theorem silent_without_debug batches :
  debug = false ->
  existsb is_print (trace (decoder batches)) = false.
Proof.
  intros Hd. rewrite decoder_run. cbn [trace snd].
  rewrite existsb_app, (run_no_print _ Hd).
  unfold setup_trace. rewrite Hd. now destruct which.
Qed.

(** *** Batches *)

Lemma publish_frame_batch n n' e frame s :
  let x := publish_frame n e frame s in
  let y := publish_frame n' e frame s in
  outcome x = outcome y /\ final x = final y /\
  silent (trace x) = silent (trace y).
Proof.
  cbn zeta. destruct which eqn:Hw.
  - rewrite !publish_frame_vipc3 by exact Hw. repeat split.
  - rewrite !publish_frame_vipc4 by exact Hw.
    destruct (last_capture_time s); [|split; [|split]; reflexivity].
    destruct (pack W H (to_ndarray_flat frame)), (time_q s);
      cbn [outcome final trace fst snd];
      (split; [|split]; try reflexivity).
    rewrite !silent_app. unfold latency_report.
    now destruct debug.
Qed.

Lemma step_batch n n' e s :
  let x := iteration (handle_evt n e) s in
  let y := iteration (handle_evt n' e) s in
  outcome x = outcome y /\ final x = final y /\
  silent (trace x) = silent (trace y).
Proof.
  cbn zeta. unfold iteration.
  destruct (passes_gate s e) eqn:G.
  - rewrite !(handle_gate_open _ e s G).
    destruct (frames_of s e) as [|frame [|frame2 frames]];
      [split; [|split]; reflexivity | | split; [|split]; reflexivity].
    pose proof (publish_frame_batch n n' e frame (received s e))
      as (A & B & C). cbn zeta in A, B, C.
    destruct (publish_frame n e frame (received s e)) as [[r1 s1] o1].
    destruct (publish_frame n' e frame (received s e)) as [[r2 s2] o2].
    cbn [outcome final trace fst snd] in *. subst r2 s2.
    assert (T : silent (receive_trace s e ++ o1)
                = silent (receive_trace s e ++ o2))
      by (now rewrite !silent_app, C).
    destruct r1; cbn [outcome final trace fst snd];
      (split; [reflexivity | split; [reflexivity | exact T]]).
  - rewrite !(handle_gate_closed _ e s G). split; [|split]; reflexivity.
Qed.

Lemma run_batch evts1 :
  forall evts2 s,
    same_packets evts1 evts2 ->
    outcome (run evts1 s) = outcome (run evts2 s) /\
    final (run evts1 s) = final (run evts2 s) /\
    silent (trace (run evts1 s)) = silent (trace (run evts2 s)).
Proof.
  unfold same_packets.
  induction evts1 as [|[n e] rest IH]; intros [|[n' e'] rest'] s Hsame;
    try discriminate.
  - split; [|split]; reflexivity.
  - cbn [map snd] in Hsame. injection Hsame as <- Hrest.
    rewrite !run_cons.
    pose proof (step_batch n n' e s) as (A & B & C). cbn zeta in A, B, C.
    destruct (iteration (handle_evt n e) s) as [[r1 s1] o1].
    destruct (iteration (handle_evt n' e) s) as [[r2 s2] o2].
    cbn [outcome final trace fst snd] in *. subst r2 s2.
    destruct r1 as [[]| | |]; cbn [outcome final trace fst snd];
      try (split; [reflexivity | split; [reflexivity | exact C]]).
    destruct (IH rest' s1 Hrest) as (A' & B' & C').
    split; [exact A' | split; [exact B'|]].
    now rewrite !silent_app, C, C'.
Qed.

(** X7. How the socket cuts the stream into batches does not matter:
    two deliveries of the same packets in the same order make the
    worker end the same way, in the same state, having done the same
    things; [len(msgs)] only shows in the latency line that [debug]
    prints. *)
Theorem batching_is_invisible batches1 batches2 :
  packets batches1 = packets batches2 ->
  outcome (decoder batches1) = outcome (decoder batches2) /\
  final (decoder batches1) = final (decoder batches2) /\
  silent (trace (decoder batches1)) = silent (trace (decoder batches2)).
Proof.
  intros Hp. rewrite !decoder_run. cbn [outcome final trace fst snd].
  assert (Hsame : same_packets (tagged batches1) (tagged batches2))
    by (unfold same_packets; now rewrite !tagged_packets).
  destruct (run_batch _ _ setup_state Hsame) as (A & B & C).
  split; [exact A | split; [exact B|]].
  now rewrite !silent_app, C.
Qed.

(** *** Latency *)

Lemma step_clock n e s :
  clock_monotone ->
  time_q_from_clock s ->
  let x := iteration (handle_evt n e) s in
  time_q_from_clock (final x) /\
  Forall (fun p => (pub_capture p <= pub_time p)%Z) (publishes (trace x)).
Proof.
  intros Hm Hs. cbn zeta. unfold time_q_from_clock in *.
  assert (Hq : Forall (fun t => exists k, (k <= tick s)%nat /\ t = monotonic k)
                      (time_q s ++ [monotonic (tick s)])).
  { apply Forall_app. split.
    - eapply Forall_impl; [|exact Hs].
      intros t (k & Hk & ->). exists k. split; [lia | reflexivity].
    - constructor; [|constructor]. exists (tick s). split; [lia | reflexivity]. }
  step_exec n e s.
  all: try match goal with
           | Q : time_q _ ++ _ = _ :: _ |- _ =>
               try rewrite Q in Hq; inversion Hq as [|? ? Hfront Hrest]; subst
           end.
  all: split;
    [ try exact Hs;
      try (eapply Forall_impl; [|first [exact Hq | exact Hrest]];
           intros ? (k & Hk & ->); exists k; split; [lia | reflexivity])
    | repeat constructor; cbn;
      try (destruct Hfront as (k & Hk & ->); apply Hm; lia) ].
Qed.

Lemma run_clock evts :
  clock_monotone ->
  forall s,
    time_q_from_clock s ->
    Forall (fun p => (pub_capture p <= pub_time p)%Z)
           (publishes (trace (run evts s))).
Proof.
  intros Hm. induction evts as [|[n e] rest IH]; intros s Hs; [constructor|].
  rewrite run_cons. pose proof (step_clock n e s Hm Hs) as [A B].
  cbn zeta in A, B.
  destruct (iteration (handle_evt n e) s) as [[r s1] o1].
  destruct r as [[]| | |]; cbn [outcome final trace fst snd] in *;
    try exact B.
  rewrite publishes_app. apply Forall_app. split; [exact B | now apply IH].
Qed.

(** X8. When the monotonic clock does not run backwards, no frame is
    published with a capture time later than its publish time: the
    latency a consumer computes from the two is never negative,
    whatever was dropped on the way. *)
Theorem capture_before_publish batches :
  clock_monotone ->
  Forall (fun p => (pub_capture p <= pub_time p)%Z)
         (publishes (trace (decoder batches))).
Proof.
  intros Hm. rewrite decoder_run. cbn [trace snd].
  rewrite publishes_app, setup_trace_publishes. cbn [app].
  apply (run_clock _ Hm).
  unfold time_q_from_clock.
  destruct setup_state_fields as (_ & -> & _). constructor.
Qed.

(** *** The display queue *)

Lemma forwards_app o1 o2 : forwards (o1 ++ o2) = forwards o1 ++ forwards o2.
Proof.
  induction o1 as [|a o1 IH]; [reflexivity|].
  destruct a; cbn [app forwards]; now rewrite IH.
Qed.

Lemma step_forward_labels n e s :
  let x := iteration (handle_evt n e) s in
  (cnt s <= cnt (final x))%Z /\
  (forwards (trace x) = [] \/
   exists img,
     forwards (trace x) = [(img, cnt s)] /\
     (outcome x = Ok tt -> cnt (final x) = (cnt s + 1)%Z)).
Proof.
  step_exec n e s.
  all: split; [lia|].
  all: try (left; reflexivity).
  all: right; eexists; split; [reflexivity|]; intros K;
    try reflexivity; discriminate.
Qed.

Lemma run_forward_labels evts :
  forall s,
    let x := run evts s in
    let labels := map snd (forwards (trace x)) in
    (cnt s <= cnt (final x))%Z /\
    StronglySorted Z.lt labels /\
    Forall (fun c => (cnt s <= c)%Z) labels /\
    (outcome x = Ok tt -> Forall (fun c => (c < cnt (final x))%Z) labels).
Proof.
  induction evts as [|[n e] rest IH]; intros s.
  - cbn. repeat split; try constructor. lia.
  - cbn zeta. rewrite run_cons.
    pose proof (step_forward_labels n e s) as (A & B). cbn zeta in A, B.
    destruct (iteration (handle_evt n e) s) as [[r s1] o1].
    cbn [outcome final trace fst snd] in *.
    assert (Hstop : r <> Ok tt ->
              (cnt s <= cnt s1)%Z /\
              StronglySorted Z.lt (map snd (forwards o1)) /\
              Forall (fun c => (cnt s <= c)%Z) (map snd (forwards o1))).
    { intros _. split; [exact A|].
      destruct B as [B|(img & B & _)]; rewrite B; cbn.
      - split; constructor.
      - split; repeat constructor. lia. }
    destruct r as [[]| | |]; cbn [outcome final trace fst snd];
      try (destruct Hstop as (S1 & S2 & S3); [discriminate|];
           split; [exact S1|]; split; [exact S2|]; split; [exact S3|];
           discriminate).
    clear Hstop.
    destruct (IH s1) as (A' & B' & C' & D'). cbn zeta in A', B', C', D'.
    rewrite forwards_app, map_app.
    split; [lia|].
    destruct B as [B|(img & B & E)]; rewrite B; cbn [map app snd].
    + split; [exact B'|]. split.
      * eapply Forall_impl; [|exact C']. cbn. intros c Hc. lia.
      * exact D'.
    + specialize (E eq_refl). split; [|split].
      * constructor; [exact B'|].
        eapply Forall_impl; [|exact C']. cbn. intros c Hc. lia.
      * constructor; [lia|].
        eapply Forall_impl; [|exact C']. cbn. intros c Hc. lia.
      * intros K. constructor; [lia | now apply D'].
Qed.

(** The frame indices put on the display queue go up, and as long as
    the worker runs each of them is the index of a published frame. *)
Lemma decoder_forward_labels batches :
  let x := decoder batches in
  let labels := map snd (forwards (trace x)) in
  StronglySorted Z.lt labels /\
  (outcome x = Ok tt ->
   Forall (fun c => In c (map pub_cnt (publishes (trace x)))) labels).
Proof.
  cbn zeta. rewrite decoder_run. cbn [outcome final trace fst snd].
  assert (E : forwards setup_trace = [])
    by (unfold setup_trace; destruct debug, which; reflexivity).
  rewrite forwards_app, publishes_app, E, setup_trace_publishes.
  cbn [app].
  pose proof (run_forward_labels (tagged batches) setup_state)
    as (_ & B & C & D).
  pose proof (run_count (tagged batches) setup_state) as (P & Q & _).
  cbn zeta in B, C, D, P, Q.
  split; [exact B|]. intros Hok. specialize (D Hok).
  rewrite P. apply Forall_forall. intros c Hc.
  rewrite Forall_forall in C, D. specialize (C c Hc). specialize (D c Hc).
  apply in_map_iff. exists (Z.to_nat (c - cnt setup_state)).
  split; [lia|]. apply in_seq. lia.
Qed.

End Worker.

(** ** The [debug] flag *)

Section DebugFlag.
Context {Time Codec Image : Type}.
Variable ns : Time -> Z.
Variable ge_1s : Time -> Time -> bool.
Variable monotonic wall : nat -> Time.
Variable keyboard : nat -> Z.
Variable codec_create : Codec.
Variable codec_decode : Codec -> bytes -> Codec * list VideoFrame.
Variable yuv_to_rgb : list bytes -> list bytes -> list bytes -> exn + Image.
Variable which : script.
Variable W H : nat.

Lemma publish_frame_debug n e frame s :
  let x := publish_frame ns ge_1s monotonic wall keyboard yuv_to_rgb
             which W H true n e frame s in
  let y := publish_frame ns ge_1s monotonic wall keyboard yuv_to_rgb
             which W H false n e frame s in
  outcome x = outcome y /\ final x = final y /\
  silent (trace x) = silent (trace (Codec := Codec) y).
Proof.
  cbn zeta. destruct which.
  - rewrite !publish_frame_vipc3 by reflexivity. repeat split.
  - rewrite !publish_frame_vipc4 by reflexivity.
    destruct (last_capture_time s); [|split; [|split]; reflexivity].
    destruct (pack W H (to_ndarray_flat frame)), (time_q s);
      cbn [outcome final trace fst snd];
      (split; [|split]; try reflexivity).
    now rewrite !silent_app.
Qed.

Lemma step_debug n e s :
  let x := iteration (handle_evt ns ge_1s monotonic wall keyboard codec_decode
                        yuv_to_rgb which W H true n e) s in
  let y := iteration (handle_evt ns ge_1s monotonic wall keyboard codec_decode
                        yuv_to_rgb which W H false n e) s in
  outcome x = outcome y /\ final x = final y /\
  silent (trace x) = silent (trace y).
Proof.
  cbn zeta. unfold iteration.
  destruct (passes_gate s e) eqn:G.
  - rewrite !handle_gate_open by exact G.
    destruct (frames_of codec_decode s e) as [|frame [|frame2 frames]].
    + cbn [outcome final trace fst snd].
      split; [|split]; try reflexivity.
      now rewrite !silent_app, !silent_receive_trace.
    + pose proof (publish_frame_debug n e frame
                    (received monotonic codec_decode s e)) as (A & B & C).
      cbn zeta in A, B, C.
      destruct (publish_frame _ _ _ _ _ _ _ _ _ true _ _ _ _)
        as [[r1 s1] o1].
      destruct (publish_frame _ _ _ _ _ _ _ _ _ false _ _ _ _)
        as [[r2 s2] o2].
      cbn [outcome final trace fst snd] in *. subst r2 s2.
      assert (T : silent (receive_trace monotonic wall codec_decode true s e
                          ++ o1)
                  = silent (receive_trace monotonic wall codec_decode false s e
                            ++ o2))
        by (now rewrite !silent_app, !silent_receive_trace, C).
      destruct r1; cbn [outcome final trace fst snd];
        (split; [reflexivity | split; [reflexivity | exact T]]).
    + cbn [outcome final trace fst snd].
      split; [|split]; try reflexivity.
      now rewrite !silent_receive_trace.
  - rewrite !handle_gate_closed by exact G.
    cbn [outcome final trace fst snd].
    split; [|split]; try reflexivity.
    rewrite !silent_app, !(silent_prints _ (gap_report_prints _ _ _)).
    reflexivity.
Qed.

Lemma run_debug evts :
  forall s,
    let x := run ns ge_1s monotonic wall keyboard codec_decode yuv_to_rgb
               which W H true evts s in
    let y := run ns ge_1s monotonic wall keyboard codec_decode yuv_to_rgb
               which W H false evts s in
    outcome x = outcome y /\ final x = final y /\
    silent (trace x) = silent (trace y).
Proof.
  induction evts as [|[n e] rest IH]; intros s; cbn zeta.
  - split; [|split]; reflexivity.
  - rewrite !run_cons.
    pose proof (step_debug n e s) as (A & B & C). cbn zeta in A, B, C.
    destruct (iteration (handle_evt _ _ _ _ _ _ _ _ _ _ true _ _) s)
      as [[r1 s1] o1].
    destruct (iteration (handle_evt _ _ _ _ _ _ _ _ _ _ false _ _) s)
      as [[r2 s2] o2].
    cbn [outcome final trace fst snd] in *. subst r2 s2.
    destruct r1 as [[]| | |]; cbn [outcome final trace fst snd];
      try (split; [reflexivity | split; [reflexivity | exact C]]).
    destruct (IH s1) as (A' & B' & C'). cbn zeta in A', B', C'.
    split; [exact A' | split; [exact B'|]].
    now rewrite !silent_app, C, C'.
Qed.

(** X9. [debug] only adds printed lines: with and without it the worker
    ends the same way and in the same state, and what it does without
    [debug] is what it does with [debug] minus the printed lines. *)
Theorem debug_only_prints batches :
  let loud := decoder ns ge_1s monotonic wall keyboard codec_create
                codec_decode yuv_to_rgb which W H true batches in
  let mute := decoder ns ge_1s monotonic wall keyboard codec_create
                codec_decode yuv_to_rgb which W H false batches in
  outcome loud = outcome mute /\
  final loud = final mute /\
  silent (trace loud) = trace mute.
Proof.
  cbn zeta.
  assert (Hid : forall o : list (@Action Time Image),
             existsb is_print o = false -> silent o = o).
  { induction o as [|a o IH]; [reflexivity|].
    cbn. intros E. apply orb_false_elim in E as [Ea Eo].
    unfold silent in *. cbn. rewrite Ea. cbn. now rewrite IH. }
  rewrite !decoder_run. cbn [outcome final trace fst snd].
  destruct (run_debug (tagged batches) (setup_state wall codec_create which))
    as (A & B & C). cbn zeta in A, B, C.
  split; [exact A | split; [exact B|]].
  rewrite silent_app, C.
  rewrite (Hid (trace (run _ _ _ _ _ _ _ _ _ _ false _ _))).
  - f_equal. unfold setup_trace. now destruct which.
  - now apply run_no_print.
Qed.

End DebugFlag.

(** ** Properties of the pixel format converter *)

(** *** Reading the planes back *)

Lemma chunks_exact {A} (w : nat) :
  (0 < w)%nat ->
  forall h fuel (l : list A),
    length l = (h * w)%nat ->
    (h <= fuel)%nat ->
    length (chunks fuel w l) = h /\
    Forall (fun row => length row = w) (chunks fuel w l) /\
    concat (chunks fuel w l) = l.
Proof.
  intros Hw. induction h as [|h IH]; intros fuel l Hl Hf.
  - destruct l; [|discriminate]. destruct fuel; repeat split; constructor.
  - destruct fuel as [|fuel]; [lia|].
    rewrite Nat.mul_succ_l in Hl.
    destruct l as [|x l]; [cbn [length] in Hl; lia|].
    cbn [chunks].
    assert (Hrest : length (skipn w (x :: l)) = (h * w)%nat)
      by (rewrite length_skipn, Hl; lia).
    assert (Hf' : (h <= fuel)%nat) by lia.
    destruct (IH fuel (skipn w (x :: l)) Hrest Hf') as (A1 & A2 & A3).
    split; [cbn; now rewrite A1|].
    split.
    + constructor; [|exact A2]. rewrite length_firstn, Hl. lia.
    + cbn [concat]. rewrite A3. apply firstn_skipn.
Qed.

Lemma crop_exact {A} (h w : nat) (rows : list (list A)) :
  length rows = h ->
  Forall (fun row => length row = w) rows ->
  crop h w rows = rows.
Proof.
  intros Hh Hrows. unfold crop. rewrite <- Hh, firstn_all. clear Hh.
  induction Hrows as [|row rows Hrow _ IH]; [reflexivity|].
  cbn [map]. rewrite IH. f_equal. rewrite <- Hrow. apply firstn_all.
Qed.

Lemma reshape_rows_exact {A} (h w : nat) (l : list A) :
  (0 < w)%nat ->
  length l = (h * w)%nat ->
  exists rows,
    reshape_rows w l = Some rows /\ crop h w rows = rows /\ concat rows = l.
Proof.
  intros Hw Hl. unfold reshape_rows. destruct w as [|w]; [lia|].
  rewrite Hl, Nat.Div0.mod_mul. cbn [Nat.eqb].
  rewrite <- Hl.
  assert (Hf : (h <= length l)%nat) by (rewrite Hl; nia).
  destruct (chunks_exact (S w) Hw h (length l) l Hl Hf) as (A1 & A2 & A3).
  eexists. split; [reflexivity|]. split; [now apply crop_exact | exact A3].
Qed.

(** C6. Bus packing: a planar YUV420 frame of dimensions [W]x[H] is
    packed as its luma plane followed by the chroma samples
    interleaved, U before V in each pair; no byte is lost, and taking
    every other byte after the luma plane, from offset [H * W] and
    from offset [H * W + 1] as [extract_image] does, gives back the U
    plane and the V plane: read as a buffer of stride [W], the packed
    bytes give the three planes of the frame, row by row. *)
Theorem bus_packing_round_trip W H frame :
  wf_frame W H frame ->
  exists packed,
    pack W H (to_ndarray_flat frame) = Some packed /\
    packed = plane_y frame ++ ravel_F (plane_u frame) (plane_v frame) /\
    length packed = length (to_ndarray_flat frame) /\
    firstn (H * W) packed = plane_y frame /\
    (forall i,
        nth_error packed (H * W + 2 * i) = nth_error (plane_u frame) i /\
        nth_error packed (H * W + 2 * i + 1) = nth_error (plane_v frame) i) /\
    slice_step2 (H * W) packed = plane_u frame /\
    slice_step2 (H * W + 1) packed = plane_v frame /\
    ((2 <= W)%nat ->
     exists y u v,
       extract_planes {| buf_data := packed; uv_offset := H * W;
                         stride := W; height := H; width := W |}
       = Some (y, u, v) /\
       concat y = plane_y frame /\
       concat u = plane_u frame /\
       concat v = plane_v frame).
Proof.
  intros Hwf. pose proof Hwf as (Hy & Hu & Hv).
  assert (Huv : length (plane_u frame) = length (plane_v frame)) by congruence.
  exists (plane_y frame ++ ravel_F (plane_u frame) (plane_v frame)).
  assert (Hfirst : firstn (H * W)
                     (plane_y frame ++ ravel_F (plane_u frame) (plane_v frame))
                   = plane_y frame).
  { now rewrite firstn_app, <- Hy, Nat.sub_diag, firstn_all, firstn_O,
      app_nil_r. }
  assert (Hsu : slice_step2 (H * W)
                  (plane_y frame ++ ravel_F (plane_u frame) (plane_v frame))
                = plane_u frame).
  { unfold slice_step2. rewrite <- Hy.
    rewrite skipn_app, Nat.sub_diag, skipn_all, skipn_O. cbn [app].
    now apply step2_ravel_F. }
  assert (Hsv : slice_step2 (H * W + 1)
                  (plane_y frame ++ ravel_F (plane_u frame) (plane_v frame))
                = plane_v frame).
  { unfold slice_step2. rewrite <- Hy.
    rewrite skipn_app, skipn_all2 by lia. cbn [app].
    replace (length (plane_y frame) + 1 - length (plane_y frame))%nat
      with 1%nat by lia.
    change (skipn 1 (ravel_F (plane_u frame) (plane_v frame)))
      with (tl (ravel_F (plane_u frame) (plane_v frame))).
    now apply step2_tl_ravel_F. }
  split; [now apply pack_planes|]. split; [reflexivity|].
  split.
  { unfold to_ndarray_flat. rewrite !length_app, ravel_F_length by exact Huv.
    reflexivity. }
  split; [exact Hfirst|].
  split.
  { intros i. rewrite <- Hy.
    rewrite <- Nat.add_assoc, !nth_error_app2 by lia.
    replace (length (plane_y frame) + 2 * i - length (plane_y frame))%nat
      with (2 * i)%nat by lia.
    replace (length (plane_y frame) + (2 * i + 1) - length (plane_y frame))%nat
      with (2 * i + 1)%nat by lia.
    now apply nth_error_ravel_F. }
  split; [exact Hsu|]. split; [exact Hsv|].
  intros HW.
  assert (HW2 : (0 < W / 2)%nat)
    by (apply Nat.div_str_pos; lia).
  assert (HW1 : (0 < W)%nat) by lia.
  destruct (reshape_rows_exact H W (plane_y frame) HW1 Hy)
    as (y & Ey & Cy & Ry).
  destruct (reshape_rows_exact (H / 2) (W / 2) (plane_u frame) HW2 Hu)
    as (u & Eu & Cu & Ru).
  destruct (reshape_rows_exact (H / 2) (W / 2) (plane_v frame) HW2 Hv)
    as (v & Ev & Cv & Rv).
  exists y, u, v. unfold extract_planes.
  cbn [buf_data uv_offset stride height width].
  rewrite Hfirst, Hsu, Hsv, Ey, Eu, Ev, Cy, Cu, Cv.
  repeat split; assumption.
Qed.

(** *** Where [extract_image] reads *)

Lemma nth_error_step2 {A} (l : list A) :
  forall k, nth_error (step2 l) k = nth_error l (2 * k).
Proof.
  intros k. revert l. induction k as [|k IH]; intros l.
  - now destruct l as [|x [|y l]].
  - destruct l as [|x [|y l]]; [reflexivity| |].
    + cbn [step2]. replace (2 * S k)%nat with (S (S (2 * k))) by lia.
      cbn [nth_error]. now rewrite !nth_error_nil.
    + cbn [step2]. replace (2 * S k)%nat with (S (S (2 * k))) by lia.
      cbn [nth_error]. apply IH.
Qed.

Lemma length_step2 {A} (l : list A) :
  length (step2 l) = ((length l + 1) / 2)%nat.
Proof.
  assert (H : forall n (l : list A), (length l <= n)%nat ->
              length (step2 l) = ((length l + 1) / 2)%nat).
  { induction n as [|n IH]; intros m Hm.
    - destruct m; [reflexivity | cbn in Hm; lia].
    - destruct m as [|x [|y m]]; [reflexivity | reflexivity |].
      cbn [step2 length]. rewrite IH by (cbn [length] in Hm; lia).
      replace (S (S (length m)) + 1)%nat with (1 * 2 + (length m + 1))%nat by lia.
      rewrite Nat.div_add_l by lia. lia. }
  now apply (H (length l)).
Qed.

Lemma nth_error_chunks {A} (w : nat) :
  (0 < w)%nat ->
  forall fuel (l : list A) i,
    (length l <= fuel * w)%nat ->
    nth_error (chunks fuel w l) i
    = if (i * w <? length l)%nat
      then Some (firstn w (skipn (i * w) l))
      else None.
Proof.
  intros Hw. induction fuel as [|fuel IH]; intros l i Hl.
  - destruct l; [|cbn in Hl; lia]. cbn [chunks length].
    rewrite nth_error_nil. now destruct (i * w <? 0)%nat eqn:E; [apply Nat.ltb_lt in E; lia|].
  - destruct l as [|x l].
    + cbn [chunks length]. rewrite nth_error_nil.
      now destruct (i * w <? 0)%nat eqn:E; [apply Nat.ltb_lt in E; lia|].
    + cbn [chunks]. destruct i as [|i].
      * reflexivity.
      * cbn [nth_error]. rewrite IH by (rewrite length_skipn; lia).
        rewrite length_skipn, skipn_skipn.
        replace (S i * w)%nat with (i * w + w)%nat by lia.
        destruct (i * w <? length (x :: l) - w)%nat eqn:E1;
          destruct (i * w + w <? length (x :: l))%nat eqn:E2;
          try reflexivity;
          [apply Nat.ltb_lt in E1; apply Nat.ltb_ge in E2
          |apply Nat.ltb_ge in E1; apply Nat.ltb_lt in E2]; lia.
Qed.

(** A sample of a plane cut out of a flat array comes from row [i],
    column [j] of the array seen with rows of [n] elements. *)
Lemma sample_crop_reshape {A} (n h w : nat) (a : list A) rows i j x :
  reshape_rows n a = Some rows ->
  sample (crop h w rows) i j = Some x ->
  (i < h)%nat /\ (j < w)%nat /\ (j < n)%nat /\
  nth_error a (i * n + j) = Some x.
Proof.
  unfold reshape_rows, sample, crop. intros Hr Hs.
  destruct n as [|n]; [discriminate|].
  destruct (length a mod S n =? 0)%nat; [|discriminate].
  injection Hr as <-.
  rewrite nth_error_map, nth_error_firstn in Hs.
  destruct (i <? h)%nat eqn:Hi; [|discriminate]. apply Nat.ltb_lt in Hi.
  rewrite nth_error_chunks in Hs by nia.
  destruct (i * S n <? length a)%nat; [|discriminate].
  cbn [option_map] in Hs.
  rewrite nth_error_firstn in Hs.
  destruct (j <? w)%nat eqn:Hj; [|discriminate]. apply Nat.ltb_lt in Hj.
  rewrite nth_error_firstn in Hs.
  destruct (j <? S n)%nat eqn:Hn; [|discriminate]. apply Nat.ltb_lt in Hn.
  rewrite nth_error_skipn in Hs.
  repeat split; assumption.
Qed.

(** X10. Where [extract_image] reads: every luma sample it returns is the
    byte at [i * stride + j] of the buffer, before [uv_offset]; every U
    sample is the byte at [uv_offset + 2 * (i * (stride / 2) + j)] and
    the V sample of the same place is the byte after it; rows and columns
    beyond [height] and [width] (half of them for chroma), the padding of
    each row included, are never returned. *)
Theorem extract_planes_addressing buf y u v :
  extract_planes buf = Some (y, u, v) ->
  (forall i j x,
      sample y i j = Some x ->
      (i < height buf)%nat /\ (j < width buf)%nat /\ (j < stride buf)%nat /\
      (i * stride buf + j < uv_offset buf)%nat /\
      nth_error (buf_data buf) (i * stride buf + j) = Some x) /\
  (forall i j x,
      sample u i j = Some x ->
      (i < height buf / 2)%nat /\ (j < width buf / 2)%nat /\
      (j < stride buf / 2)%nat /\
      nth_error (buf_data buf)
                (uv_offset buf + 2 * (i * (stride buf / 2) + j)) = Some x) /\
  (forall i j x,
      sample v i j = Some x ->
      (i < height buf / 2)%nat /\ (j < width buf / 2)%nat /\
      (j < stride buf / 2)%nat /\
      nth_error (buf_data buf)
                (uv_offset buf + 1 + 2 * (i * (stride buf / 2) + j)) = Some x).
Proof.
  unfold extract_planes. intros E.
  destruct (reshape_rows (stride buf) _) as [y0|] eqn:Ey; [|discriminate].
  destruct (reshape_rows (stride buf / 2) (slice_step2 (uv_offset buf) _))
    as [u0|] eqn:Eu; [|discriminate].
  destruct (reshape_rows (stride buf / 2) (slice_step2 (uv_offset buf + 1) _))
    as [v0|] eqn:Ev; [|discriminate].
  injection E as <- <- <-.
  split; [|split]; intros i j x Hs.
  - destruct (sample_crop_reshape _ _ _ _ _ _ _ _ Ey Hs) as (A1 & A2 & A3 & A4).
    rewrite nth_error_firstn in A4.
    destruct (i * stride buf + j <? uv_offset buf)%nat eqn:Hlt; [|discriminate].
    apply Nat.ltb_lt in Hlt. repeat split; assumption.
  - destruct (sample_crop_reshape _ _ _ _ _ _ _ _ Eu Hs) as (A1 & A2 & A3 & A4).
    unfold slice_step2 in A4. rewrite nth_error_step2, nth_error_skipn in A4.
    repeat split; assumption.
  - destruct (sample_crop_reshape _ _ _ _ _ _ _ _ Ev Hs) as (A1 & A2 & A3 & A4).
    unfold slice_step2 in A4. rewrite nth_error_step2, nth_error_skipn in A4.
    repeat split; assumption.
Qed.

Lemma reshape_rows_none {A} (n : nat) (a : list A) :
  reshape_rows n a = None <-> n = O \/ (length a mod n <> 0)%nat.
Proof.
  unfold reshape_rows. destruct n as [|n].
  - split; [now left | reflexivity].
  - destruct (length a mod S n =? 0)%nat eqn:E.
    + apply Nat.eqb_eq in E. split; [discriminate|]. intros [?|?]; [discriminate|contradiction].
    + apply Nat.eqb_neq in E. split; [now right | reflexivity].
Qed.

(** X11. When [extract_image] fails on a buffer: exactly when one of the
    three [reshape] calls of lines 36-38 is refused, that is when the
    stride is below 2, or the luma region is not a whole number of rows
    of [stride] bytes, or the U samples or the V samples after it are not
    a whole number of rows of [stride // 2]. *)
Theorem extract_planes_raises buf :
  let size := length (buf_data buf) in
  extract_planes buf = None <->
  (stride buf < 2)%nat \/
  (Nat.min (uv_offset buf) size mod stride buf <> 0)%nat \/
  (((size - uv_offset buf + 1) / 2) mod (stride buf / 2) <> 0)%nat \/
  (((size - (uv_offset buf + 1) + 1) / 2) mod (stride buf / 2) <> 0)%nat.
Proof.
  cbn zeta. unfold extract_planes.
  pose proof (reshape_rows_none (stride buf)
                (firstn (uv_offset buf) (buf_data buf))) as Hy.
  pose proof (reshape_rows_none (stride buf / 2)
                (slice_step2 (uv_offset buf) (buf_data buf))) as Hu.
  pose proof (reshape_rows_none (stride buf / 2)
                (slice_step2 (uv_offset buf + 1) (buf_data buf))) as Hv.
  unfold slice_step2 in *.
  rewrite length_firstn in Hy. rewrite length_step2, length_skipn in Hu, Hv.
  assert (Hs : (stride buf / 2 = 0)%nat <-> (stride buf < 2)%nat).
  { split; intros Hs.
    - destruct (Nat.lt_ge_cases (stride buf) 2) as [|Hge]; [assumption|].
      pose proof (Nat.div_str_pos (stride buf) 2 ltac:(lia)). lia.
    - apply Nat.div_small. exact Hs. }
  destruct (reshape_rows (stride buf) _) as [y|].
  - destruct (reshape_rows (stride buf / 2) (step2 (skipn (uv_offset buf) _)))
      as [u|].
    + destruct (reshape_rows (stride buf / 2) _) as [v|].
      * split; [discriminate|]. intros [K|[K|[K|K]]].
        -- apply Hs in K.
           destruct Hu as [_ Hu]. specialize (Hu (or_introl K)). discriminate.
        -- destruct Hy as [_ Hy]. specialize (Hy (or_intror K)). discriminate.
        -- destruct Hu as [_ Hu]. specialize (Hu (or_intror K)). discriminate.
        -- destruct Hv as [_ Hv]. specialize (Hv (or_intror K)). discriminate.
      * split; [intros _|reflexivity].
        destruct (proj1 Hv eq_refl) as [K|K]; [left; now apply Hs | now right; right; right].
    + split; [intros _|reflexivity].
      destruct (proj1 Hu eq_refl) as [K|K]; [left; now apply Hs | now right; right; left].
  - split; [intros _|reflexivity].
    destruct (proj1 Hy eq_refl) as [K|K]; [left; lia | now right; left].
Qed.

(** *** The chroma upsampling of [yuv_to_rgb] *)

Lemma length_repeat_2 {A} (l : list A) : length (repeat_2 l) = (2 * length l)%nat.
Proof.
  induction l as [|x l IH]; [reflexivity|].
  cbn [repeat_2 flat_map app length] in *. fold (repeat_2 l). lia.
Qed.

Lemma nth_error_repeat_2 {A} (l : list A) j :
  nth_error (repeat_2 l) j = nth_error l (j / 2).
Proof.
  revert j. induction l as [|x l IH]; intros j.
  - cbn. now rewrite !nth_error_nil.
  - cbn [repeat_2 flat_map app]. fold (repeat_2 l).
    destruct j as [|[|j]]; [reflexivity | reflexivity |].
    cbn [nth_error]. rewrite IH.
    replace (S (S j)) with (1 * 2 + j)%nat by lia.
    rewrite Nat.div_add_l by lia. reflexivity.
Qed.

Lemma length_concat_repeat_rows_2 {A} (m : list (list A)) :
  length (concat (repeat_rows_2 m)) = (2 * length (concat m))%nat.
Proof.
  induction m as [|row m IH]; [reflexivity|].
  cbn [repeat_rows_2 flat_map app concat] in *. fold (repeat_rows_2 m).
  rewrite !length_app, IH. lia.
Qed.

Lemma concat_chunks {A} (h w : nat) (l : list A) :
  length l = (h * w)%nat -> concat (chunks h w l) = l.
Proof.
  intros Hl. destruct w as [|w].
  - rewrite Nat.mul_0_r in Hl. destruct l; [|discriminate].
    now destruct h.
  - now apply (chunks_exact (S w) ltac:(lia) h h l Hl (le_n h)).
Qed.

Lemma nth_error_concat_rows {A} (n : nat) (m : list (list A)) :
  Forall (fun row => length row = n) m ->
  forall i j, (j < n)%nat ->
    nth_error (concat m) (i * n + j) = sample m i j.
Proof.
  induction 1 as [|row m Hrow _ IH]; intros i j Hj.
  - unfold sample. cbn. now rewrite !nth_error_nil.
  - cbn [concat]. destruct i as [|i].
    + unfold sample. cbn [nth_error Nat.mul Nat.add].
      apply nth_error_app1. lia.
    + unfold sample. cbn [nth_error].
      rewrite nth_error_app2 by (rewrite Hrow; lia).
      replace (S i * n + j - length row)%nat with (i * n + j)%nat
        by (rewrite Hrow; lia).
      now apply IH.
Qed.

Lemma nth_error_repeat_rows_2 {A} (m : list (list A)) i :
  nth_error (repeat_rows_2 m) i = nth_error m (i / 2).
Proof.
  revert i. induction m as [|row m IH]; intros i.
  - cbn. now rewrite !nth_error_nil.
  - cbn [repeat_rows_2 flat_map app]. fold (repeat_rows_2 m).
    destruct i as [|[|i]]; [reflexivity | reflexivity |].
    cbn [nth_error]. rewrite IH.
    replace (S (S i)) with (1 * 2 + i)%nat by lia.
    rewrite Nat.div_add_l by lia. reflexivity.
Qed.

Lemma Forall_repeat_rows_2 {A} (P : list A -> Prop) (m : list (list A)) :
  Forall P m -> Forall P (repeat_rows_2 m).
Proof.
  induction 1 as [|row m Hrow _ IH]; [constructor|].
  cbn [repeat_rows_2 flat_map app]. now repeat constructor.
Qed.

(** X12. The chroma upsampling of [yuv_to_rgb]: for a luma plane of [2 * h]
    rows and [2 * w] columns and a chroma plane of [h] rows and [w]
    columns, both [reshape] calls are accepted, the result has the shape
    of the luma plane, and its sample in row [i], column [j] is the
    chroma sample of row [i // 2], column [j // 2]: every chroma sample
    covers a block of two by two pixels. *)
Theorem chroma_upsampling {A} (h w : nat) (u : list A) :
  length u = (h * w)%nat ->
  exists ul,
    upsample (2 * h, 2 * w)%nat (h, w) u = Some ul /\
    length ul = (2 * h * (2 * w))%nat /\
    forall i j,
      (i < 2 * h)%nat -> (j < 2 * w)%nat ->
      nth_error ul (i * (2 * w) + j) = nth_error u (i / 2 * w + j / 2).
Proof.
  intros Hu. unfold upsample. cbn [fst snd].
  assert (Hd : length (repeat_2 u) = (h * (2 * w))%nat)
    by (rewrite length_repeat_2, Hu; lia).
  rewrite Hd, Nat.eqb_refl.
  assert (Hc : concat (chunks h (2 * w) (repeat_2 u)) = repeat_2 u)
    by now apply concat_chunks.
  assert (Hl : length (concat (repeat_rows_2 (chunks h (2 * w) (repeat_2 u))))
               = (2 * h * (2 * w))%nat)
    by (rewrite length_concat_repeat_rows_2, Hc, Hd; lia).
  rewrite Hl, Nat.eqb_refl.
  eexists. split; [reflexivity|]. split; [exact Hl|].
  intros i j Hi Hj.
  assert (Hw : (0 < 2 * w)%nat) by lia.
  destruct (chunks_exact (2 * w) Hw h h (repeat_2 u) Hd (le_n h))
    as (_ & Hrows & _).
  rewrite (nth_error_concat_rows (2 * w)) by
    (try apply Forall_repeat_rows_2; assumption).
  unfold sample. rewrite nth_error_repeat_rows_2.
  rewrite nth_error_chunks by (try rewrite Hd; lia).
  assert (Hi2 : (i / 2 < h)%nat) by (apply Nat.Div0.div_lt_upper_bound; lia).
  assert (Hj2 : (j / 2 < w)%nat) by (apply Nat.Div0.div_lt_upper_bound; lia).
  assert (Hlt : (i / 2 * (2 * w) <? length (repeat_2 u))%nat = true)
    by (apply Nat.ltb_lt; rewrite Hd; nia).
  rewrite Hlt, nth_error_firstn.
  assert (Hjw : (j <? 2 * w)%nat = true) by now apply Nat.ltb_lt.
  rewrite Hjw, nth_error_skipn, nth_error_repeat_2. f_equal.
  replace (i / 2 * (2 * w) + j)%nat with ((i / 2 * w) * 2 + j)%nat by lia.
  now rewrite Nat.div_add_l by lia.
Qed.

(** X13. When the chroma upsampling of [yuv_to_rgb] fails: for a chroma
    plane of [hu] rows and [wu] columns and a luma plane of [hy] rows
    and [wy] columns, a [reshape] raises [ValueError] unless the luma
    plane is twice as wide as the chroma plane (or there is no chroma
    row) and twice as high (or has no column). For the planes that
    [extract_image] cuts out, of [h] by [w] and [h // 2] by [w // 2]
    samples, this is the case of an odd width or an odd height. *)
Theorem chroma_upsampling_raises {A} (hy wy hu wu : nat) (u : list A) :
  length u = (hu * wu)%nat ->
  (upsample (hy, wy) (hu, wu) u = None <->
   ~ ((hu = 0 \/ wy = 2 * wu) /\ (wy = 0 \/ hy = 2 * hu))%nat) /\
  (hu = hy / 2 -> wu = wy / 2 ->
   upsample (hy, wy) (hu, wu) u = None <->
   (2 <= hy /\ wy mod 2 = 1 \/ wy <> 0 /\ hy mod 2 = 1)%nat).
Proof.
  intros Hu.
  assert (Hiff : upsample (hy, wy) (hu, wu) u = None <->
                 ~ ((hu = 0 \/ wy = 2 * wu) /\ (wy = 0 \/ hy = 2 * hu))%nat).
  { unfold upsample. cbn [fst snd]. rewrite length_repeat_2, Hu.
    destruct (2 * (hu * wu) =? hu * wy)%nat eqn:E1.
    - apply Nat.eqb_eq in E1.
      rewrite length_concat_repeat_rows_2, concat_chunks
        by (rewrite length_repeat_2, Hu; exact E1).
      rewrite length_repeat_2, Hu.
      destruct (2 * (2 * (hu * wu)) =? hy * wy)%nat eqn:E2.
      + apply Nat.eqb_eq in E2. split; [discriminate|]. intros Hn.
        exfalso. apply Hn. split.
        * destruct hu; [now left | right; nia].
        * destruct wy; [now left | right; nia].
      + apply Nat.eqb_neq in E2. split; [|reflexivity]. intros _ [_ [K|K]].
        * subst wy. apply E2. nia.
        * subst hy. apply E2. nia.
    - apply Nat.eqb_neq in E1. split; [|reflexivity]. intros _ [[K|K] _].
      + subst hu. apply E1. reflexivity.
      + subst wy. apply E1. nia. }
  split; [exact Hiff|].
  intros Hh Hw. rewrite Hiff. subst hu wu. clear Hu Hiff.
  pose proof (Nat.div_mod_eq hy 2) as Dh.
  pose proof (Nat.div_mod_eq wy 2) as Dw.
  pose proof (Nat.mod_upper_bound hy 2) as Mh.
  pose proof (Nat.mod_upper_bound wy 2) as Mw.
  generalize dependent (hy / 2)%nat. generalize dependent (wy / 2)%nat.
  generalize dependent (hy mod 2)%nat. generalize dependent (wy mod 2)%nat.
  intros. lia.
Qed.

(** ** Properties of the display process *)

Section DisplayFacts.
Context {Canvas : Type}.
Variable randint : nat -> Canvas.
Variable putText : Canvas -> Z -> Canvas.
Variable keyboard : nat -> Z.

Lemma displayed_app (o1 o2 : list (DisplayAction Canvas)) :
  displayed (o1 ++ o2) = displayed o1 ++ displayed o2.
Proof.
  induction o1 as [|a o1 IH]; [reflexivity|].
  destruct a; cbn [app displayed]; now rewrite IH.
Qed.

Lemma windows_closed_app (o1 o2 : list (DisplayAction Canvas)) :
  windows_closed (o1 ++ o2) = (windows_closed o1 + windows_closed o2)%nat.
Proof.
  induction o1 as [|a o1 IH]; [reflexivity|].
  destruct a; cbn [app windows_closed]; now rewrite IH.
Qed.

Lemma no_q_tail n k :
  no_q keyboard n (S k) ->
  (Z.land (keyboard n) 255 =? 113)%Z = false /\ no_q keyboard (S n) k.
Proof.
  intros Hq. split.
  - specialize (Hq O ltac:(lia)). now rewrite Nat.add_0_r in Hq.
  - intros i Hi. specialize (Hq (S i) ltac:(lia)).
    now rewrite Nat.add_succ_r in Hq.
Qed.

Lemma pictures_app {Picture} (frames1 frames2 : list (Picture * Z)) n :
  pictures randint putText keyboard (frames1 ++ frames2) n
  = pictures randint putText keyboard frames1 n
    ++ pictures randint putText keyboard frames2 (n + length frames1).
Proof.
  revert n. induction frames1 as [|[img c] frames1 IH]; intros n.
  - cbn. now rewrite Nat.add_0_r.
  - cbn [app pictures length]. rewrite IH, Nat.add_succ_r. reflexivity.
Qed.

Lemma displayed_pictures {Picture} (frames : list (Picture * Z)) n :
  displayed (pictures randint putText keyboard frames n) = map snd frames /\
  windows_closed (pictures randint putText keyboard frames n) = O.
Proof.
  revert n. induction frames as [|[img c] frames IH]; intros n;
    [split; reflexivity|].
  destruct (IH (S n)) as [A B]. cbn. now rewrite A, B.
Qed.

(** While [q] is not pressed the process shows frame after frame. *)
Lemma frame_processor_frames {Picture} (frames : list (Picture * Z)) :
  forall rest n,
    no_q keyboard n (length frames) ->
    frame_processor randint putText keyboard (map Some frames ++ rest) n
    = (pictures randint putText keyboard frames n
       ++ fst (frame_processor randint putText keyboard rest
                 (n + length frames)),
       snd (frame_processor randint putText keyboard rest
              (n + length frames))).
Proof.
  induction frames as [|[img c] frames IH]; intros rest n Hq.
  - cbn [map app length pictures]. rewrite Nat.add_0_r.
    now destruct (frame_processor _ _ _ rest n).
  - apply no_q_tail in Hq. destruct Hq as [Hk Hq].
    cbn [map app frame_processor pictures]. rewrite Hk, (IH rest (S n) Hq).
    cbn [length]. now rewrite Nat.add_succ_r.
Qed.

(** X14. The display process shows every frame of the queue, in order,
    up to the [None] of [join]: as long as [q] is not pressed, one
    picture per queued frame, with its frame index, is shown and the
    process then waits for more; [None] makes it close the windows,
    once and as its last action, and return, whatever is queued after
    it. *)
Theorem display_runs_to_sentinel {Picture} (frames : list (Picture * Z))
        rest n :
  no_q keyboard n (length frames) ->
  let o := pictures randint putText keyboard frames n in
  frame_processor randint putText keyboard (map Some frames) n
  = (o, Waiting) /\
  frame_processor randint putText keyboard (map Some frames ++ None :: rest) n
  = (o ++ [DDestroyAllWindows], Returned) /\
  displayed o = map snd frames /\
  windows_closed o = O.
Proof.
  intros Hq o.
  pose proof (frame_processor_frames frames [] n Hq) as E.
  pose proof (frame_processor_frames frames (None :: rest) n Hq) as E'.
  rewrite app_nil_r in E. cbn [frame_processor fst snd] in E, E'.
  rewrite app_nil_r in E.
  split; [exact E|]. split; [exact E'|]. apply displayed_pictures.
Qed.

(** X15. The key [q] ends the display process: the picture that is up
    when [q] is read is the last one, the windows are closed and the
    process returns; the frames still queued, and those put later, are
    never shown, and the [None] of [join] is not needed. *)
Theorem display_stops_on_q {Picture} (frames : list (Picture * Z))
        img_rgb cnt rest n :
  no_q keyboard n (length frames) ->
  (Z.land (keyboard (n + length frames)) 255 =? 113)%Z = true ->
  let o := pictures randint putText keyboard (frames ++ [(img_rgb, cnt)]) n in
  frame_processor randint putText keyboard
                  (map Some frames ++ Some (img_rgb, cnt) :: rest) n
  = (o ++ [DDestroyAllWindows], Returned) /\
  displayed o = map snd frames ++ [cnt] /\
  windows_closed o = O.
Proof.
  intros Hq Hk o.
  pose proof (frame_processor_frames frames (Some (img_rgb, cnt) :: rest)
                n Hq) as E.
  cbn [frame_processor] in E. rewrite Hk in E. cbn [fst snd] in E.
  split.
  - rewrite E. unfold o. rewrite pictures_app. cbn [pictures].
    now rewrite <- !app_assoc.
  - unfold o. destruct (displayed_pictures (frames ++ [(img_rgb, cnt)]) n)
      as [A B].
    rewrite A, B, map_app. split; reflexivity.
Qed.

(** X16. The display process never looks at the picture it is sent: two
    queues that agree on the frame indices, and on where [None] stands,
    give the same output, the same images on the screen included. What
    is shown is a random image with the frame index, not the frame. *)
Theorem display_ignores_pictures {Picture1 Picture2}
        (queue1 : list (option (Picture1 * Z)))
        (queue2 : list (option (Picture2 * Z))) n :
  map (option_map snd) queue1 = map (option_map snd) queue2 ->
  frame_processor randint putText keyboard queue1 n
  = frame_processor randint putText keyboard queue2 n.
Proof.
  revert queue2 n.
  induction queue1 as [|[[img1 c1]|] queue1 IH];
    intros [|[[img2 c2]|] queue2] n E; try discriminate; try reflexivity.
  cbn [map option_map snd] in E. injection E as -> E.
  cbn [frame_processor]. now rewrite (IH queue2 (S n) E).
Qed.
End DisplayFacts.

(** ** The worker and the display process together *)

Section Relay.
Context {Time Codec Image Canvas : Type}.
Variable ns : Time -> Z.
Variable ge_1s : Time -> Time -> bool.
Variable monotonic wall : nat -> Time.
Variable keyboard : nat -> Z.
Variable codec_create : Codec.
Variable codec_decode : Codec -> bytes -> Codec * list VideoFrame.
Variable yuv_to_rgb : list bytes -> list bytes -> list bytes -> exn + Image.
Variable W H : nat.
Variable debug : bool.
(** The display process and its keyboard. *)
Variable randint : nat -> Canvas.
Variable putText : Canvas -> Z -> Canvas.
Variable keys : nat -> Z.

(** X17. compressed_vipc4.py as a whole, with nobody pressing [q]: the
    display process shows one picture for every frame the worker put on
    the queue, in the same order; the frame indices it prints go up
    strictly; while the worker runs it waits in [get], the windows stay
    open and every index it has printed is the index of a frame that
    was published; once the worker has ended, [join] makes it close the
    windows once and return. *)
Theorem display_follows_worker batches :
  (forall k, no_q keys 0 k) ->
  let x := decoder ns ge_1s monotonic wall keyboard codec_create
             codec_decode yuv_to_rgb compressed_vipc4 W H debug batches in
  let d := frame_processor randint putText keys (frame_queue x) 0 in
  displayed (fst d) = map snd (forwards (trace x)) /\
  StronglySorted Z.lt (displayed (fst d)) /\
  (outcome x = Ok tt ->
   snd d = Waiting /\
   windows_closed (fst d) = O /\
   Forall (fun c => In c (map pub_cnt (publishes (trace x))))
          (displayed (fst d))) /\
  (outcome x <> Ok tt ->
   snd d = Returned /\ windows_closed (fst d) = 1%nat).
Proof.
  intros Hq. cbn zeta.
  pose proof (decoder_forward_labels ns ge_1s monotonic wall keyboard
                codec_create codec_decode yuv_to_rgb compressed_vipc4 W H
                debug batches) as (S1 & S2).
  cbn zeta in S1, S2.
  set (x := decoder _ _ _ _ _ _ _ _ _ _ _ _ batches) in *.
  unfold frame_queue.
  rewrite (frame_processor_frames randint putText keys (forwards (trace x)))
    by apply Hq.
  cbn [fst snd]. rewrite displayed_app, windows_closed_app.
  destruct (displayed_pictures randint putText keys (forwards (trace x)) 0)
    as [D C].
  rewrite D, C.
  destruct (outcome x) as [[]| | |]; cbn [frame_processor fst snd displayed
                                          windows_closed Nat.add];
    rewrite app_nil_r.
  all: split; [reflexivity|]; split; [exact S1|]; split.
  all: try (intros K; discriminate K).
  all: try (intros K; exfalso; now apply K).
  all: try (intros _; split; reflexivity).
  intros K. split; [reflexivity|]. split; [reflexivity|]. now apply S2.
Qed.
End Relay.

(** ** Sample runs *)

(** The worker in the small world, on 2x2 frames. *)
Abbreviation toy_decoder which debug :=
  (decoder toy_ns toy_ge_1s toy_monotonic toy_wall toy_keyboard
           O toy_decode toy_yuv_to_rgb which 2 2 debug).

Abbreviation toy_handle_evt which debug :=
  (handle_evt toy_ns toy_ge_1s toy_monotonic toy_wall toy_keyboard
              toy_decode toy_yuv_to_rgb which 2 2 debug).

Lemma sync_gating_witness :
  exists before t w nh nd after,
    trace (toy_decoder compressed_vipc4 true stream_with_gap)
    = before
      ++ [AMonotonic t; AAppend t; ATime w;
          ADecode Header [x09] nh; ADecode Data [x07] nd]
      ++ after
    /\ forallb quiet before = true
    /\ header_decodes after = O
    /\ header_decodes
         (trace (toy_decoder compressed_vipc4 true stream_with_gap)) = 1%nat
    /\ publishes (trace (toy_decoder compressed_vipc4 true stream_with_gap))
       = publishes after.
Proof.
  apply (sync_gating toy_ns toy_ge_1s toy_monotonic toy_wall toy_keyboard
           O toy_decode toy_yuv_to_rgb compressed_vipc4 2 2 true
           stream_with_gap 1 (packet 6 8 [x09] [x07])).
  - reflexivity.
  - reflexivity.
  - intros j e Hj He. destruct j as [|j]; [|lia].
    injection He as <-. reflexivity.
Defined.

(** C2 as the spec states it does not hold: one accepted packet, no
    dropped surface, and yet no publish, because the decoder returned
    two frames and the assertion of line 84 stopped the worker. *)
Lemma dense_publish_index_counterexample :
  let x := toy_decoder compressed_vipc4 false stream_two_frames in
  length (accepted (packets stream_two_frames)) = 1%nat /\
  dropped_surfaces (trace x) = O /\
  publishes (trace x) = [] /\
  outcome x = Raise AssertionError /\
  length (publishes (trace x))
  <> (length (accepted (packets stream_two_frames))
      - dropped_surfaces (trace x))%nat.
Proof.
  vm_compute. repeat split. discriminate.
Qed.

Lemma dense_publish_index_witness :
  let x := toy_decoder compressed_vipc4 true stream_with_gap in
  outcome x = Ok tt /\
  map pub_cnt (publishes (trace x)) = [0; 1; 2]%Z /\
  data_decodes (trace x) = 4%nat /\
  length (publishes (trace x)) = (4 - 1)%nat /\
  cnt (final x) = 3%Z.
Proof.
  cbn zeta.
  pose proof (dense_publish_index toy_ns toy_ge_1s toy_monotonic toy_wall
                toy_keyboard O toy_decode toy_yuv_to_rgb compressed_vipc4
                2 2 true stream_with_gap) as [A B].
  specialize (B eq_refl). destruct B as (B1 & B2 & B3 & B4).
  split; [reflexivity|].
  split; [exact A|]. split; [exact B1|]. split; [exact B2 | exact B4].
Defined.

Lemma dropped_surface_is_skipped_witness :
  let s := final (toy_decoder compressed_vipc4 false stream_two_packets) in
  let e := packet 3 0 [] [] in
  let x := toy_handle_evt compressed_vipc4 false 1 e s in
  passes_gate s e = true /\
  frames_of toy_decode s e = [] /\
  outcome x = Continue /\
  publishes (trace x) = [] /\
  cnt (final x) = 2%Z /\
  time_q s = [] /\
  time_q (final x) = [toy_monotonic (tick s)].
Proof.
  cbn zeta.
  pose proof (dropped_surface_is_skipped toy_ns toy_ge_1s toy_monotonic
                toy_wall toy_keyboard toy_decode toy_yuv_to_rgb
                compressed_vipc4 2 2 false 1 (packet 3 0 [] [])
                (final (toy_decoder compressed_vipc4 false stream_two_packets))
                eq_refl eq_refl) as (A & B & _ & C & _ & D & _).
  split; [reflexivity|]. split; [reflexivity|].
  split; [exact A|]. split; [exact B|]. split; [exact C|].
  split; [reflexivity | exact D].
Defined.

Lemma extra_frames_abort_witness :
  let s := final (toy_decoder compressed_vipc4 false stream_two_packets) in
  let e := packet 3 0 [] [x02] in
  let x := toy_handle_evt compressed_vipc4 false 1 e s in
  passes_gate s e = true /\
  length (frames_of toy_decode s e) = 2%nat /\
  outcome x = Raise AssertionError /\
  publishes (trace x) = [] /\
  cnt (final x) = 2%Z.
Proof.
  cbn zeta.
  pose proof (extra_frames_abort toy_ns toy_ge_1s toy_monotonic
                toy_wall toy_keyboard toy_decode toy_yuv_to_rgb
                compressed_vipc4 2 2 false 1 (packet 3 0 [] [x02])
                (final (toy_decoder compressed_vipc4 false stream_two_packets))
                eq_refl) as (A & _ & B).
  cbn zeta in A, B.
  assert (Hlen : (2 <= length
                   (frames_of toy_decode
                      (final (toy_decoder compressed_vipc4 false
                                stream_two_packets))
                      (packet 3 0 [] [x02])))%nat) by (vm_compute; lia).
  destruct (B Hlen) as (B1 & B2 & _).
  split; [reflexivity|]. split; [reflexivity|].
  split; [exact (proj2 A Hlen)|]. split; [exact B1 | exact B2].
Defined.

Lemma bus_packing_round_trip_witness :
  wf_frame 2 2 (toy_frame x07) /\
  exists packed,
    pack 2 2 (to_ndarray_flat (toy_frame x07)) = Some packed /\
    packed = [x07; x07; x07; x07; x01; x02] /\
    slice_step2 4 packed = [x01] /\
    slice_step2 5 packed = [x02] /\
    exists y u v,
      extract_planes {| buf_data := packed; uv_offset := 4;
                        stride := 2; height := 2; width := 2 |}
      = Some (y, u, v) /\
      concat y = [x07; x07; x07; x07] /\
      concat u = [x01] /\
      concat v = [x02].
Proof.
  assert (Hwf : wf_frame 2 2 (toy_frame x07)) by (repeat split).
  split; [exact Hwf|].
  destruct (bus_packing_round_trip 2 2 (toy_frame x07) Hwf)
    as (packed & A & B & _ & _ & _ & C & D & E).
  exists packed. split; [exact A|]. split; [exact B|].
  split; [exact C|]. split; [exact D|].
  exact (E (le_n 2)).
Defined.

Lemma encode_id_is_diagnostic_only_witness :
  Forall2 (Forall2 same_but_encodeId) stream_with_gap stream_without_gap /\
  publishes (trace (toy_decoder compressed_vipc4 true stream_with_gap))
  = publishes (trace (toy_decoder compressed_vipc4 true stream_without_gap)) /\
  silent (trace (toy_decoder compressed_vipc4 true stream_with_gap))
  = silent (trace (toy_decoder compressed_vipc4 true stream_without_gap)) /\
  trace (toy_decoder compressed_vipc4 true stream_with_gap)
  <> trace (toy_decoder compressed_vipc4 true stream_without_gap).
Proof.
  assert (Hsame : Forall2 (Forall2 same_but_encodeId)
                          stream_with_gap stream_without_gap).
  { repeat constructor. }
  split; [exact Hsame|].
  destruct (encode_id_is_diagnostic_only toy_ns toy_ge_1s toy_monotonic
              toy_wall toy_keyboard O toy_decode toy_yuv_to_rgb
              compressed_vipc4 2 2 true _ _ Hsame) as (A & B & _).
  split; [exact A|]. split; [exact B|].
  vm_compute. discriminate.
Defined.

Lemma last_idx_follows_every_packet_witness :
  let s := final (toy_decoder compressed_vipc4 true stream_unsynced) in
  let e := packet 7 8 [x09] [x07] in
  last_idx s = 6%Z /\
  gap (-1) e = true /\
  gap 6 e = false /\
  exists rest,
    trace (toy_handle_evt compressed_vipc4 true 1 e s)
    = AMonotonic (toy_monotonic (tick s)) :: rest.
Proof.
  cbn zeta.
  destruct (last_idx_follows_every_packet toy_ns toy_ge_1s toy_monotonic
              toy_wall toy_keyboard O toy_decode toy_yuv_to_rgb
              compressed_vipc4 2 2 true stream_unsynced
              [packet 5 0 [] [x07]] (packet 6 0 [] [x07]) 1
              (packet 7 8 [x09] [x07]))
    as (_ & _ & _ & A & rest & B).
  - reflexivity.
  - repeat constructor.
  - reflexivity.
  - split; [exact A|]. split; [reflexivity|]. split; [reflexivity|].
    exists rest. exact B.
Defined.

(** C9 on compressed_vipc3.py: the first frame is published, then the
    way to [cv2.imshow] raises [AttributeError] in [extract_image]; no
    frame is ever shown, the worker is gone and the second packet is
    never published. compressed_vipc4.py publishes both. *)
Theorem display_path_stops_vipc3 :
  let x3 := toy_decoder compressed_vipc3 false stream_two_packets in
  let x4 := toy_decoder compressed_vipc4 false stream_two_packets in
  outcome x3 = Raise AttributeError /\
  map pub_cnt (publishes (trace x3)) = [0%Z] /\
  forallb (fun a => match a with AImshow _ => false | _ => true end)
          (trace x3) = true /\
  outcome x4 = Ok tt /\
  map pub_cnt (publishes (trace x4)) = [0%Z; 1%Z].
Proof.
  vm_compute. repeat split.
Qed.
(** ** Further sample runs *)

(** The worker with the decoder that returns at most one frame. *)
Abbreviation toy_decoder_one which debug :=
  (decoder toy_ns toy_ge_1s toy_monotonic toy_wall toy_keyboard
           O toy_decode_one toy_yuv_to_rgb which 2 2 debug).

(** The stream with one dropped surface: one timestamp stays behind in
    [time_q]. *)
Lemma time_q_backlog_witness :
  let x := toy_decoder compressed_vipc4 true stream_with_gap in
  outcome x = Ok tt /\
  length (time_q (final x)) = 1%nat /\
  time_q (final x)
  = skipn (length (publishes (trace x))) (receipts (trace x)) /\
  length (time_q (final x)) = dropped_surfaces (trace x) /\
  length (receipts (trace x)) = 4%nat.
Proof.
  cbn zeta. split; [reflexivity|]. split; [reflexivity|].
  exact (time_q_backlog toy_ns toy_ge_1s toy_monotonic toy_wall toy_keyboard
           O toy_decode toy_yuv_to_rgb compressed_vipc4 2 2 true
           stream_with_gap eq_refl).
Defined.

Lemma publish_is_this_packet_witness :
  let s := final (toy_decoder compressed_vipc4 false stream_two_packets) in
  let e := packet 3 0 [] [x07] in
  let p := {| pub_img := [x07; x07; x07; x07; x01; x02]; pub_cnt := 2;
              pub_capture := 9400000000; pub_time := 10600000000 |} in
  In p (publishes (trace (toy_handle_evt compressed_vipc4 false 1 e s))) /\
  passes_gate s e = true /\
  pub_cnt p = cnt s /\
  exists frame,
    frames_of toy_decode s e = [frame] /\
    pack 2 2 (to_ndarray_flat frame) = Some (pub_img p).
Proof.
  cbn zeta.
  assert (Hin : In {| pub_img := [x07; x07; x07; x07; x01; x02];
                      pub_cnt := 2; pub_capture := 9400000000;
                      pub_time := 10600000000 |}
                   (publishes
                      (trace
                         (toy_handle_evt compressed_vipc4 false 1
                            (packet 3 0 [] [x07])
                            (final (toy_decoder compressed_vipc4 false
                                      stream_two_packets))))))
    by (vm_compute; left; reflexivity).
  split; [exact Hin|].
  exact (publish_is_this_packet toy_ns toy_ge_1s toy_monotonic toy_wall
           toy_keyboard toy_decode toy_yuv_to_rgb compressed_vipc4 2 2 false
           1 _ _ _ Hin).
Defined.

Lemma forwarded_frame_label_witness :
  let s := final (toy_decoder compressed_vipc4 false stream_two_packets) in
  let e := packet 3 0 [] [x07] in
  let img := [x07; x07; x07; x07; x01; x02] in
  In (img, 2%Z)
     (forwards (trace (toy_handle_evt compressed_vipc4 false 1 e s))) /\
  2%Z = cnt s /\
  exists frame,
    frames_of toy_decode s e = [frame] /\ img = to_ndarray_flat frame.
Proof.
  cbn zeta.
  assert (Hin : In ([x07; x07; x07; x07; x01; x02], 2%Z)
                   (forwards
                      (trace
                         (toy_handle_evt compressed_vipc4 false 1
                            (packet 3 0 [] [x07])
                            (final (toy_decoder compressed_vipc4 false
                                      stream_two_packets))))))
    by (vm_compute; left; reflexivity).
  split; [exact Hin|].
  destruct (forwarded_frame_label toy_ns toy_ge_1s toy_monotonic toy_wall
              toy_keyboard toy_decode toy_yuv_to_rgb compressed_vipc4 2 2
              false 1 _ _ _ _ eq_refl Hin) as (A & B & _).
  split; [exact A | exact B].
Defined.

Lemma vipc3_display_path_is_dead_witness :
  let x := toy_decoder compressed_vipc3 true stream_two_packets in
  existsb display_action (trace x) = false /\
  (length (publishes (trace x)) <= 1)%nat /\
  (outcome x = Raise AttributeError \/ outcome x = Raise ValueError).
Proof.
  cbn zeta.
  destruct (vipc3_display_path_is_dead toy_ns toy_ge_1s toy_monotonic
              toy_wall toy_keyboard O toy_decode toy_yuv_to_rgb
              compressed_vipc3 2 2 true stream_two_packets eq_refl)
    as (A & B & C).
  split; [exact A|]. split; [exact B|].
  apply C. vm_compute. discriminate.
Defined.

Lemma silent_without_debug_witness :
  existsb is_print
          (trace (toy_decoder compressed_vipc4 false stream_with_gap))
  = false.
Proof.
  exact (silent_without_debug toy_ns toy_ge_1s toy_monotonic toy_wall
           toy_keyboard O toy_decode toy_yuv_to_rgb compressed_vipc4 2 2
           false stream_with_gap eq_refl).
Defined.

(** The stream with a gap delivered in two batches and in one. *)
Lemma batching_is_invisible_witness :
  let x2 := toy_decoder compressed_vipc4 true stream_with_gap in
  let x1 := toy_decoder compressed_vipc4 true [packets stream_with_gap] in
  packets stream_with_gap = packets [packets stream_with_gap] /\
  outcome x2 = outcome x1 /\
  final x2 = final x1 /\
  silent (trace x2) = silent (trace x1) /\
  trace x2 <> trace x1.
Proof.
  cbn zeta.
  assert (Hp : packets stream_with_gap = packets [packets stream_with_gap])
    by reflexivity.
  split; [exact Hp|].
  destruct (batching_is_invisible toy_ns toy_ge_1s toy_monotonic toy_wall
              toy_keyboard O toy_decode toy_yuv_to_rgb compressed_vipc4 2 2
              true stream_with_gap [packets stream_with_gap] Hp)
    as (A & B & C).
  split; [exact A|]. split; [exact B|]. split; [exact C|].
  vm_compute. discriminate.
Defined.

Lemma capture_before_publish_witness :
  clock_monotone toy_ns toy_monotonic /\
  Forall (fun p => (pub_capture p <= pub_time p)%Z)
         (publishes (trace (toy_decoder compressed_vipc4 true stream_with_gap))).
Proof.
  assert (Hc : clock_monotone toy_ns toy_monotonic)
    by (intros i j Hij; unfold toy_ns, toy_monotonic; lia).
  split; [exact Hc|].
  exact (capture_before_publish toy_ns toy_ge_1s toy_monotonic toy_wall
           toy_keyboard O toy_decode toy_yuv_to_rgb compressed_vipc4 2 2
           true stream_with_gap Hc).
Defined.


Lemma vipc4_forwards_spaced_witness :
  forward_times (trace (toy_decoder compressed_vipc4 true stream_with_gap))
  = [toy_wall 3; toy_wall 10; toy_wall 15] /\
  spaced toy_ge_1s (toy_wall 0)
         (forward_times
            (trace (toy_decoder compressed_vipc4 true stream_with_gap)))
  = true.
Proof.
  split; [reflexivity|].
  exact (vipc4_forwards_spaced toy_ns toy_ge_1s toy_monotonic toy_wall
           toy_keyboard O toy_decode toy_yuv_to_rgb compressed_vipc4 2 2
           true stream_with_gap eq_refl).
Defined.

(** The padding byte of each row of [toy_buf] is not returned, and the
    chroma samples come from alternating bytes. *)
Lemma extract_planes_addressing_witness :
  extract_planes toy_buf
  = Some ([[x01; x02; x03]; [x04; x05; x06]], [[x0a]], [[x0b]]) /\
  (forall i j x,
      sample [[x01; x02; x03]; [x04; x05; x06]] i j = Some x ->
      (i < 2)%nat /\ (j < 3)%nat /\ (j < 4)%nat /\
      (i * 4 + j < 8)%nat /\
      nth_error (buf_data toy_buf) (i * 4 + j) = Some x) /\
  (forall i j x,
      sample [[x0a]] i j = Some x ->
      nth_error (buf_data toy_buf) (8 + 2 * (i * 2 + j)) = Some x).
Proof.
  assert (He : extract_planes toy_buf
               = Some ([[x01; x02; x03]; [x04; x05; x06]], [[x0a]], [[x0b]]))
    by reflexivity.
  split; [exact He|].
  destruct (extract_planes_addressing toy_buf _ _ _ He) as (A & B & _).
  split; [exact A|].
  intros i j x Hs. now destruct (B i j x Hs) as (_ & _ & _ & K).
Defined.

Lemma chroma_upsampling_witness :
  length [x01; x02] = (1 * 2)%nat /\
  exists ul,
    upsample (2, 4)%nat (1, 2)%nat [x01; x02] = Some ul /\
    length ul = 8%nat /\
    nth_error ul (1 * 4 + 3) = Some x02.
Proof.
  split; [reflexivity|].
  destruct (chroma_upsampling 1 2 [x01; x02] eq_refl) as (ul & A & B & C).
  exists ul. split; [exact A|]. split; [exact B|].
  apply (C 1%nat 3%nat); lia.
Defined.

(** A luma plane of odd width. *)
Lemma chroma_upsampling_raises_witness :
  length [x01] = (1 * 1)%nat /\
  upsample (2, 3)%nat (1, 1)%nat [x01] = None.
Proof.
  split; [reflexivity|].
  destruct (chroma_upsampling_raises 2 3 1 1 [x01] eq_refl) as [_ B].
  apply (B eq_refl eq_refl). left. split; [lia | reflexivity].
Defined.

Lemma display_runs_to_sentinel_witness :
  let frames := [([x01], 4%Z); ([x02], 7%Z)] in
  no_q toy_keyboard 0 2 /\
  frame_processor toy_randint toy_putText toy_keyboard
                  (map Some frames ++ None :: [Some ([x03], 9%Z)]) 0
  = ([DPrint 4; DImshow [0%Z; 4%Z]; DWaitKey (-1);
      DPrint 7; DImshow [1%Z; 7%Z]; DWaitKey (-1)]
     ++ [DDestroyAllWindows], Returned).
Proof.
  cbn zeta.
  assert (Hq : no_q toy_keyboard 0 2) by (intros i Hi; reflexivity).
  split; [exact Hq|].
  exact (proj1 (proj2 (display_runs_to_sentinel toy_randint toy_putText
                         toy_keyboard [([x01], 4%Z); ([x02], 7%Z)]
                         [Some ([x03], 9%Z)] 0 Hq))).
Defined.

Lemma display_stops_on_q_witness :
  no_q toy_keyboard_q 0 1 /\
  (Z.land (toy_keyboard_q (0 + 1)) 255 =? 113)%Z = true /\
  frame_processor toy_randint toy_putText toy_keyboard_q
                  (map Some [([x01], 4%Z)]
                   ++ Some ([x02], 7%Z) :: [Some ([x03], 9%Z); None]) 0
  = ([DPrint 4; DImshow [0%Z; 4%Z]; DWaitKey (-1);
      DPrint 7; DImshow [1%Z; 7%Z]; DWaitKey 113]
     ++ [DDestroyAllWindows], Returned).
Proof.
  assert (Hq : no_q toy_keyboard_q 0 1).
  { intros i Hi. destruct i; [reflexivity | lia]. }
  split; [exact Hq|]. split; [reflexivity|].
  exact (proj1 (display_stops_on_q toy_randint toy_putText toy_keyboard_q
                  [([x01], 4%Z)] [x02] 7%Z [Some ([x03], 9%Z); None] 0
                  Hq eq_refl)).
Defined.

(** The same frame indices with pictures and with nothing in their
    place. *)
Lemma display_ignores_pictures_witness :
  let queue1 := [Some ([x01], 4%Z); Some ([x02], 7%Z); None] in
  let queue2 := [Some (tt, 4%Z); Some (tt, 7%Z); None] in
  map (option_map snd) queue1 = map (option_map snd) queue2 /\
  frame_processor toy_randint toy_putText toy_keyboard queue1 0
  = frame_processor toy_randint toy_putText toy_keyboard queue2 0.
Proof.
  cbn zeta. split; [reflexivity|].
  exact (display_ignores_pictures toy_randint toy_putText toy_keyboard
           [Some ([x01], 4%Z); Some ([x02], 7%Z); None]
           [Some (tt, 4%Z); Some (tt, 7%Z); None] 0 eq_refl).
Defined.

Lemma display_follows_worker_witness :
  let x := toy_decoder compressed_vipc4 true stream_with_gap in
  let d := frame_processor toy_randint toy_putText toy_keyboard
             (frame_queue x) 0 in
  (forall k, no_q toy_keyboard 0 k) /\
  outcome x = Ok tt /\
  displayed (fst d) = [0; 1; 2]%Z /\
  displayed (fst d) = map snd (forwards (trace x)) /\
  snd d = Waiting /\
  windows_closed (fst d) = O.
Proof.
  cbn zeta.
  assert (Hq : forall k, no_q toy_keyboard 0 k)
    by (intros k i Hi; reflexivity).
  split; [exact Hq|]. split; [reflexivity|]. split; [reflexivity|].
  destruct (display_follows_worker toy_ns toy_ge_1s toy_monotonic toy_wall
              toy_keyboard O toy_decode toy_yuv_to_rgb 2 2 true
              toy_randint toy_putText toy_keyboard stream_with_gap Hq)
    as (A & _ & B & _).
  split; [exact A|].
  destruct (B eq_refl) as (B1 & B2 & _).
  split; [exact B1 | exact B2].
Defined.
